(** * Article harvesting and enhancement pipeline

    A shallow embedding of the two scripts of the repository:

    - [backendTaskPhaseOne/scraper.js]: pagination probe, link harvester,
      article extractor and the save loop of [scrapeArticles];
    - [nodeScriptPhaseTwo/index.js]: reference finder, reference scraper and
      the per-article orchestrator [processOneArticle].

    JavaScript strings are sequences of UTF-16 code units; they are modelled
    as lists of code units so that [.length], [.substring], [.trim] and the
    like are the list operations they are in the language.  The libraries the
    scripts call (cheerio, axios, puppeteer, mongoose, the search and the
    generation service) are not part of the repository: the DOM is a
    parameter of the development, and the outside world is an oracle record
    whose answers the functions consume. *)

From Stdlib Require Import String Ascii DecimalString DecimalN.
From Stdlib Require Import NArith Arith Bool Lia List.
Import ListNotations.

Set Implicit Arguments.

(** ** JavaScript strings *)

Module Js.

Definition codeunit := N.
Definition jsstring := list codeunit.

(** A string literal of the source (all of them are ASCII). *)
Definition lit (s : string) : jsstring :=
  map N_of_ascii (list_ascii_of_string s).

Fixpoint str_eqb (a b : jsstring) : bool :=
  match a, b with
  | [], [] => true
  | x :: a', y :: b' => N.eqb x y && str_eqb a' b'
  | _, _ => false
  end.

(** [s.startsWith(p)] *)
Fixpoint startsWith (s p : jsstring) {struct p} : bool :=
  match p, s with
  | [], _ => true
  | _ :: _, [] => false
  | c :: p', d :: s' => N.eqb c d && startsWith s' p'
  end.

(** [s.includes(p)] *)
Fixpoint includes (s p : jsstring) : bool :=
  startsWith s p ||
  match s with
  | [] => false
  | _ :: s' => includes s' p
  end.

(** [arr.includes(x)] on an array of strings. *)
Definition arr_includes (arr : list jsstring) (x : jsstring) : bool :=
  existsb (str_eqb x) arr.

(** The characters matched by [\s] and stripped by [trim]: the WhiteSpace
    and LineTerminator productions of ECMAScript. *)
Definition is_space (c : codeunit) : bool :=
  ((9 <=? c) && (c <=? 13) || (c =? 32) || (c =? 160) || (c =? 5760)
   || (8192 <=? c) && (c <=? 8202) || (c =? 8232) || (c =? 8233)
   || (c =? 8239) || (c =? 8287) || (c =? 12288) || (c =? 65279))%N.

Fixpoint trimStart (s : jsstring) : jsstring :=
  match s with
  | [] => []
  | c :: s' => if is_space c then trimStart s' else s
  end.

Definition trimEnd (s : jsstring) : jsstring := rev (trimStart (rev s)).

(** [s.trim()] *)
Definition trim (s : jsstring) : jsstring := trimEnd (trimStart s).

(** [s.replace(/\s+/g, ' ')]: every maximal run of white space becomes one
    space.  [in_run] tells that the previous character was white space. *)
Fixpoint collapse_from (in_run : bool) (s : jsstring) : jsstring :=
  match s with
  | [] => []
  | c :: s' =>
      if is_space c
      then (if in_run then collapse_from true s' else 32%N :: collapse_from true s')
      else c :: collapse_from false s'
  end.

Definition collapse_spaces (s : jsstring) : jsstring := collapse_from false s.

(** [s.substring(0, n)] *)
Definition substring0 (n : nat) (s : jsstring) : jsstring := firstn n s.

(** [\d] *)
Definition is_digit (c : codeunit) : bool := ((48 <=? c) && (c <=? 57))%N.

Fixpoint take_digits (s : jsstring) : jsstring :=
  match s with
  | [] => []
  | c :: s' => if is_digit c then c :: take_digits s' else []
  end.

(** If [p] is a prefix of [s], what follows it. *)
Fixpoint after_prefix (p s : jsstring) {struct p} : option jsstring :=
  match p, s with
  | [], _ => Some s
  | _ :: _, [] => None
  | c :: p', d :: s' => if N.eqb c d then after_prefix p' s' else None
  end.

(** [parseInt(ds)] on a string of decimal digits, as the natural number the
    digits denote.  JavaScript numbers are doubles: the model is the
    language on digit strings that denote integers up to 2^53, which
    [parseInt] and the comparison of numbers treat exactly. *)
Definition parseInt (ds : jsstring) : N :=
  fold_left (fun acc d => (10 * acc + (d - 48))%N) ds 0%N.

(** Number to string conversion of a template literal, for an integer below
    1e21, from where the language prints the exponent form. *)
Definition of_N (n : N) : jsstring :=
  lit (NilZero.string_of_uint (N.to_uint n)).

(** Truthiness of a string: the empty string is falsy. *)
Definition truthy (s : jsstring) : bool :=
  match s with [] => false | _ :: _ => true end.

End Js.

Import Js.

(** ** The DOM the scripts query

    [cheerio] is an external library.  What the scripts use of it is a
    document type, the ordered list of elements a selector matches
    ([$(selector)]) and the removal of the elements a selector matches
    ([$(selector).remove()]).  An element offers its text and the two
    attributes the scripts read; an absent attribute is [undefined]. *)

Record Element := {
  el_text : jsstring;
  el_href : option jsstring;
  el_src  : option jsstring
}.

Class Cheerio := {
  doc : Type;
  select : doc -> string -> list Element;
  remove : string -> doc -> doc
}.

(** [.first()], [.length] and [.text()] of a selection. *)
Definition first (sel : list Element) : list Element := firstn 1 sel.

Definition text (sel : list Element) : jsstring := concat (map el_text sel).

(** [.attr('src')] of a selection reads the attribute of its first element. *)
Definition attr_src (sel : list Element) : option jsstring :=
  match sel with
  | [] => None
  | e :: _ => el_src e
  end.

Definition dq : string := String (ascii_of_nat 34) EmptyString.

(** ** The selector cascades shared by both extractors *)

Section Cascade.
Context `{Cheerio}.

(** The body-content loop of both scripts:
<<
    for (const selector of contentSelectors) {
      const element = $(selector).first();
      if (element.length > 0) {
        mainContent = element.text().trim();
        if (mainContent.length > threshold) break;
      }
    }
>>
    [content] is the value of the variable when the loop is entered. *)
Fixpoint content_loop (threshold : nat) (d : doc) (selectors : list string)
         (content : jsstring) : jsstring :=
  match selectors with
  | [] => content
  | selector :: rest =>
      let element := first (select d selector) in
      if 0 <? length element then
        let content' := trim (text element) in
        if threshold <? length content' then content'
        else content_loop threshold d rest content'
      else content_loop threshold d rest content
  end.

(** The title and author loops: the trimmed text of the match is assigned,
    and the loop stops when it is not empty. *)
Fixpoint text_loop (d : doc) (selectors : list string) (value : jsstring)
  : jsstring :=
  match selectors with
  | [] => value
  | selector :: rest =>
      let element := first (select d selector) in
      if 0 <? length element then
        let value' := trim (text element) in
        if truthy value' then value' else text_loop d rest value'
      else text_loop d rest value
  end.

(** [content.replace(/\s+/g, ' ').trim()] *)
Definition normalize (s : jsstring) : jsstring := trim (collapse_spaces s).

End Cascade.

(** ** Phase one: [backendTaskPhaseOne/scraper.js] *)

Module Scraper.

Definition site_origin : jsstring := lit "https://beyondchats.com".

(** [href.match(/\/blogs\/page\/(\d+)/)]: the capture group of the leftmost
    match, [\d+] being greedy. *)
Fixpoint match_page (href : jsstring) : option jsstring :=
  match href with
  | [] => None
  | _ :: rest =>
      match after_prefix (lit "/blogs/page/") href with
      | Some tail =>
          match take_digits tail with
          | [] => match_page rest
          | ds => Some ds
          end
      | None => match_page rest
      end
  end.

(** The body of [$('a').each(...)] in [findLastPage]. *)
Definition page_step (lastPage : N) (a : Element) : N :=
  match el_href a with
  | Some href =>
      if truthy href then
        match match_page href with
        | Some ds =>
            let pageNum := parseInt ds in
            if (lastPage <? pageNum)%N then pageNum else lastPage
        | None => lastPage
        end
      else lastPage
  | None => lastPage
  end.

(** The body of [$(selector).each(...)] in [scrapeArticleLinks]. *)
Definition link_step (articleLinks : list jsstring) (a : Element)
  : list jsstring :=
  match el_href a with
  | Some href =>
      if truthy href && includes href (lit "blog")
         && negb (includes href (lit "#"))
      then
        let href' :=
          if negb (startsWith href (lit "http"))
          then site_origin ++
               (if startsWith href (lit "/") then href else lit "/" ++ href)
          else href in
        if negb (arr_includes articleLinks href')
        then articleLinks ++ [href']
        else articleLinks
      else articleLinks
  | None => articleLinks
  end.

Definition link_selectors : list string :=
  ["article a"; ".post a"; ".blog-post a"; ".entry a"; "h2 a"; "h3 a";
   ".post-title a"; ".entry-title a"]%string.

Definition titleSelectors : list string :=
  ["h1"; ".entry-title"; ".post-title"; "h1.title"; "article h1"]%string.

Definition contentSelectors : list string :=
  ["article"; ".entry-content"; ".post-content"; ".article-content";
   ".content"; "main article"; ".post-body"]%string.

Definition authorSelectors : list string :=
  [".author"; ".by-author"; ".post-author"; ".author-name"]%string.

Definition imgSelectors : list string :=
  ["article img"; ".post-thumbnail img"; ".featured-image img"; "img"]%string.

Definition noise : string :=
  "script, style, nav, header, footer, aside, .comments, .sidebar".

(** The record [scrapeArticleContent] returns; [type] is always
    ['original'].  [imageUrl] is [None] for [null] and [undefined]. *)
Record Article := {
  title : jsstring;
  content : jsstring;
  url : jsstring;
  author : jsstring;
  imageUrl : option jsstring;
  type : jsstring
}.

Section WithDom.
Context `{Cheerio}.

(** [findLastPage]; the argument is what [scrapeWithPuppeteer] gave,
    [None] when it threw. *)
Definition findLastPage (page : option doc) : N :=
  match page with
  | Some d => fold_left page_step (select d "a") 1%N
  | None => 1%N
  end.

(** The [for (const selector of selectors)] loop of [scrapeArticleLinks]. *)
Fixpoint links_loop (d : doc) (selectors : list string)
         (articleLinks : list jsstring) : list jsstring :=
  match selectors with
  | [] => articleLinks
  | selector :: rest =>
      let articleLinks' :=
        fold_left link_step (select d selector) articleLinks in
      if 5 <=? length articleLinks' then articleLinks'
      else links_loop d rest articleLinks'
  end.

Definition scrapeArticleLinks (page : option doc) : list jsstring :=
  match page with
  | Some d => firstn 5 (links_loop d link_selectors [])
  | None => []
  end.

(** The image loop of [scrapeArticleContent]. *)
Fixpoint image_loop (d : doc) (selectors : list string)
         (imageUrl : option jsstring) : option jsstring :=
  match selectors with
  | [] => imageUrl
  | selector :: rest =>
      let element := first (select d selector) in
      if 0 <? length element then
        match attr_src element with
        | Some src =>
            if truthy src then
              Some (if negb (startsWith src (lit "http"))
                    then site_origin ++ src else src)
            else image_loop d rest (Some src)
        | None => image_loop d rest None
        end
      else image_loop d rest imageUrl
  end.

(** The values of [title] and [content] at the test before the return,
    on the document after the removal of the noise elements. *)
Definition extract_title (d : doc) : jsstring :=
  text_loop d titleSelectors [].

Definition selected_content (d : doc) : jsstring :=
  content_loop 200 d contentSelectors [].

Definition extract_content (d : doc) : jsstring :=
  normalize (selected_content d).

(** [scrapeArticleContent(url)]; [None] is the [null] it returns. *)
Definition scrapeArticleContent (page : option doc) (url : jsstring)
  : option Article :=
  match page with
  | Some d0 =>
      let d := remove noise d0 in
      let title := extract_title d in
      let author := text_loop d authorSelectors (lit "Unknown") in
      let imageUrl := image_loop d imgSelectors None in
      let content := extract_content d in
      if negb (truthy title) || negb (truthy content)
         || (length content <? 100)
      then None
      else Some {| title := title; content := content; url := url;
                   author := author; imageUrl := imageUrl;
                   type := lit "original" |}
  | None => None
  end.

(** Modelled from the spec: the Article collection behind
    [Article.findOne] and [Article.create]; [models/Article.js] is not
    among the sources.  The spec gives the persistence service a
    [create(record)] that stores the record or fails, and a look-up of
    originals by [url]; a collection is the list of the stored records
    in creation order. *)
Definition Collection := list Article.

Definition findOne (u : jsstring) (c : Collection) : option Article :=
  find (fun a => str_eqb (url a) u) c.

Definition create (a : Article) (c : Collection) : Collection := c ++ [a].

(** The outside world of one run of [scrapeArticles]: what the [n]-th
    call of [scrapeWithPuppeteer] gives for a URL ([None] when it
    throws), and whether the store throws in the [i]-th iteration of the
    save loop (the [catch] of the loop body then logs the error). *)
Record World := {
  render : nat -> jsstring -> option doc;
  store_fault : nat -> bool
}.

Definition baseUrl : jsstring := lit "https://beyondchats.com/blogs/".

(** Step 3 of [scrapeArticles]: [n] counts the page loads of the run. *)
Fixpoint scrape_loop (w : World) (n : nat) (articleLinks : list jsstring)
         (articles : list Article) : list Article :=
  match articleLinks with
  | [] => articles
  | link :: rest =>
      match scrapeArticleContent (render w n link) link with
      | Some articleData => scrape_loop w (S n) rest (articles ++ [articleData])
      | None => scrape_loop w (S n) rest articles
      end
  end.

(** Step 4 of [scrapeArticles]. *)
Fixpoint save_loop (w : World) (i : nat) (articles : list Article)
         (c : Collection) : Collection :=
  match articles with
  | [] => c
  | articleData :: rest =>
      let c' :=
        if store_fault w i then c
        else match findOne (url articleData) c with
             | Some _ => c
             | None => create articleData c
             end in
      save_loop w (S i) rest c'
  end.

Definition lastPageUrl (lastPage : N) : jsstring :=
  if (1 <? lastPage)%N
  then baseUrl ++ lit "page/" ++ of_N lastPage ++ lit "/"
  else baseUrl.

(** The links of step 2 and the candidate records of step 3. *)
Definition harvested_links (w : World) : list jsstring :=
  let lastPage := findLastPage (render w 0 baseUrl) in
  scrapeArticleLinks (render w 1 (lastPageUrl lastPage)).

Definition harvested (w : World) : list Article :=
  scrape_loop w 2 (harvested_links w) [].

(** [scrapeArticles()]: the collection it leaves, from the one it finds. *)
Definition scrapeArticles (w : World) (c : Collection) : Collection :=
  let articleLinks := harvested_links w in
  if length articleLinks =? 0 then c
  else save_loop w 0 (scrape_loop w 2 articleLinks []) c.

End WithDom.

End Scraper.

(** ** Phase two: [nodeScriptPhaseTwo/index.js] *)

Module Pipeline.

(** The search API answers [{ items: [{ link }, ...] }], each [link] a
    string; [items] and [link] may be absent.  [SearchFailed] is a request
    that throws, whatever the error. *)
Record SearchItem := { link : option jsstring }.

Inductive SearchReply :=
| SearchFailed
| SearchData (items : option (list SearchItem)).

(** The body of [response.data.items.forEach(...)]. *)
Definition search_step (foundLinks : list jsstring) (item : SearchItem)
  : list jsstring :=
  match link item with
  | Some url =>
      if truthy url
         && startsWith url (lit "http")
         && negb (includes url (lit "youtube.com"))
         && negb (includes url (lit "facebook.com"))
         && (length foundLinks <? 2)
      then foundLinks ++ [url]
      else foundLinks
  | None => foundLinks
  end.

Definition searchGoogleForArticle (reply : SearchReply) : list jsstring :=
  match reply with
  | SearchData (Some items) => fold_left search_step items []
  | SearchData None => []
  | SearchFailed => []
  end.

Definition noise : string :=
  "script, style, nav, header, footer, aside, iframe, .advertisement, .ads, .comments, .sidebar, .related-posts".

Definition contentSelectors : list string :=
  ["article"; "[role=" ++ dq ++ "main" ++ dq ++ "]"; ".post-content";
   ".entry-content"; ".article-content"; ".article-body"; ".content";
   "main"; ".post-body";
   "[itemprop=" ++ dq ++ "articleBody" ++ dq ++ "]"]%string.

(** An original article as the API lists it, a scraped reference
    [{ url, content }] and the record [saveEnhancedArticle] posts
    [{ title, content, type, originalArticleId, references }]; the fields
    [content] and [title] of the last two carry a prefix, the three records
    sharing one name space here. *)
Record Original := { _id : jsstring; title : jsstring; content : jsstring }.

Record Reference := { url : jsstring; ref_content : jsstring }.

Record ArticleData := {
  data_title : jsstring;
  data_content : jsstring;
  type : jsstring;
  originalArticleId : jsstring;
  references : list jsstring
}.

(** What [processOneArticle] returns: [{ success, reason }]. *)
Record Outcome := { success : bool; reason : option jsstring }.

Definition skipped (why : string) : Outcome :=
  {| success := false; reason := Some (lit why) |}.

(** The calls a run makes to the outside, in order. *)
Inductive Event :=
| Searched (title : jsstring)
| Scraped (url : jsstring)
| Waited (ms : N)
| Enhanced (title content : jsstring) (refs : list Reference)
| Saved (data : ArticleData).

Definition Run (A : Type) : Type := (A * list Event)%type.

Definition ret {A} (a : A) : Run A := (a, []).

Definition bind {A B} (m : Run A) (k : A -> Run B) : Run B :=
  let '(a, t) := m in let '(b, t') := k a in (b, t ++ t').

Definition emit (e : Event) : Run unit := (tt, [e]).

Notation "x <- m ;; k" := (bind m (fun x => k))
  (at level 100, m at next level, right associativity).
Notation "m ;; k" := (bind m (fun _ => k))
  (at level 100, right associativity).

Definition nl : jsstring := [10%N].

(** [arr.join(sep)] *)
Definition join (sep : jsstring) (arr : list jsstring) : jsstring :=
  match arr with
  | [] => []
  | x :: rest => x ++ flat_map (fun y => sep ++ y) rest
  end.

(** [references.map((ref, i) => `${i + 1}. [Source ${i + 1}](${ref.url})`)],
    from index [i]. *)
Fixpoint citation_lines (i : N) (refs : list Reference) : list jsstring :=
  match refs with
  | [] => []
  | ref :: rest =>
      (of_N (i + 1) ++ lit ". [Source " ++ of_N (i + 1) ++ lit "]("
         ++ url ref ++ lit ")")
      :: citation_lines (i + 1) rest
  end.

Definition referencesSection (refs : list Reference) : jsstring :=
  nl ++ nl ++ lit "---" ++ nl ++ nl ++ lit "## References" ++ nl ++ nl
     ++ lit "This article was enhanced based on insights from:" ++ nl ++ nl
     ++ join nl (citation_lines 0 refs) ++ nl ++ nl
     ++ lit "*Enhanced by AI for improved SEO and readability.*" ++ nl.

Section WithDom.
Context `{Cheerio}.

(** [scrapeContentFromURL]: the argument is the parsed page, [None] when
    [axios.get] or [cheerio.load] threw; the [catch] returns ['']. *)
Definition selected_content (d : doc) : jsstring :=
  content_loop 500 d contentSelectors [].

Definition raw_content (d : doc) : jsstring :=
  let mainContent := selected_content d in
  if negb (truthy mainContent) || (length mainContent <? 500)
  then trim (text (select d "body"))
  else mainContent.

Definition scrapeContentFromURL (page : option doc) : jsstring :=
  match page with
  | Some d0 =>
      let d := remove noise d0 in
      let mainContent := normalize (raw_content d) in
      if 4000 <? length mainContent
      then substring0 4000 mainContent
      else mainContent
  | None => []
  end.

(** The outside world of one run of [processOneArticle]: the answer of
    the search API for a title, the page the [n]-th reference scrape of
    the run loads, the text the generation service gives ([None]: the
    call threw, [enhanceArticleWithAI] returns [null]) and the answer to
    the POST of the record ([None]: it threw; otherwise whether
    [response.data] is truthy). *)
Record World := {
  customsearch : jsstring -> SearchReply;
  http_get : nat -> jsstring -> option doc;
  completion : jsstring -> jsstring -> list Reference -> option jsstring;
  post : ArticleData -> option bool
}.

(** [enhanceArticleWithAI]: the prompt is a function of the three
    arguments, and the generation service is an oracle on them. *)
Definition enhanceArticleWithAI (w : World) (originalTitle originalContent : jsstring)
           (referenceArticles : list Reference) : Run (option jsstring) :=
  emit (Enhanced originalTitle originalContent referenceArticles);;
  ret (completion w originalTitle originalContent referenceArticles).

(** [saveEnhancedArticle]: whether what it returns is truthy. *)
Definition saveEnhancedArticle (w : World) (originalId originalTitle enhancedContent : jsstring)
           (referenceUrls : list jsstring) : Run bool :=
  let articleData :=
    {| data_title := originalTitle ++ lit " (Enhanced)";
       data_content := enhancedContent;
       type := lit "updated";
       originalArticleId := originalId;
       references := referenceUrls |} in
  emit (Saved articleData);;
  ret (match post w articleData with Some b => b | None => false end).

(** Step 2 of [processOneArticle]; [n] counts the scrapes of the run. *)
Fixpoint scrape_loop (w : World) (n : nat) (googleResults : list jsstring)
         (references : list Reference) : Run (list Reference) :=
  match googleResults with
  | [] => ret references
  | url :: rest =>
      emit (Scraped url);;
      let content := scrapeContentFromURL (http_get w n url) in
      let references' :=
        if truthy content && (500 <? length content)
        then references ++ [{| url := url; ref_content := content |}]
        else references in
      emit (Waited 1000);;
      scrape_loop w (S n) rest references'
  end.

Definition processOneArticle (w : World) (article : Original) : Run Outcome :=
  emit (Searched (title article));;
  let googleResults := searchGoogleForArticle (customsearch w (title article)) in
  if length googleResults =? 0 then ret (skipped "No Google results")
  else
    references <- scrape_loop w 0 googleResults [];;
    if length references =? 0 then ret (skipped "Scraping failed")
    else
      enhanced <- enhanceArticleWithAI w (title article) (content article) references;;
      match enhanced with
      | Some enhanced =>
          if truthy enhanced then
            let finalContent := enhanced ++ referencesSection references in
            saved <- saveEnhancedArticle w (_id article) (title article)
                       finalContent (map url references);;
            if saved : bool then ret {| success := true; reason := None |}
            else ret (skipped "Save failed")
          else ret (skipped "AI failed")
      | None => ret (skipped "AI failed")
      end.

End WithDom.

End Pipeline.

(** ** Descriptions the theorems compare the code with *)

Section Described.
Context `{Cheerio}.

(** The trimmed texts of the selectors of a cascade that match an element,
    in the order of the cascade. *)
Definition matched_texts (d : doc) (selectors : list string) : list jsstring :=
  flat_map (fun selector =>
              match first (select d selector) with
              | [] => []
              | element => [trim (text element)]
              end) selectors.

(** The page numbers of the anchors whose [href] matches the pattern, in
    document order. *)
Definition page_numbers (d : doc) : list N :=
  flat_map (fun a =>
              match el_href a with
              | Some href =>
                  match Scraper.match_page href with
                  | Some ds => [parseInt ds]
                  | None => []
                  end
              | None => []
              end) (select d "a").

(** The anchors the link selectors match, cascade order then document
    order. *)
Definition anchors (d : doc) (selectors : list string) : list Element :=
  flat_map (select d) selectors.

End Described.

(** An [href] the link harvester keeps, and the URL it stores for it. *)
Definition blog_href (href : jsstring) : bool :=
  truthy href && includes href (lit "blog") && negb (includes href (lit "#")).

Definition resolve (href : jsstring) : jsstring :=
  if startsWith href (lit "http") then href
  else if startsWith href (lit "/") then Scraper.site_origin ++ href
       else Scraper.site_origin ++ lit "/" ++ href.

(** [u] is the resolved [href] of a kept anchor among [els]. *)
Definition from_anchor (els : list Element) (u : jsstring) : Prop :=
  exists a href,
    In a els /\ el_href a = Some href /\ blog_href href = true
    /\ u = resolve href.

(** A link of a search answer the reference finder accepts. *)
Definition acceptable (url : jsstring) : bool :=
  truthy url
  && startsWith url (lit "http")
  && negb (includes url (lit "youtube.com"))
  && negb (includes url (lit "facebook.com")).

Definition candidates (items : list Pipeline.SearchItem) : list jsstring :=
  flat_map (fun item =>
              match Pipeline.link item with
              | Some url => if acceptable url then [url] else []
              | None => []
              end) items.

(** ** A concrete DOM

    A page given by the table of what each selector matches; removing a
    selector empties its entry. *)

Definition Table := list (string * list Element).

Definition table_select (d : Table) (selector : string) : list Element :=
  match find (fun entry => String.eqb (fst entry) selector) d with
  | Some entry => snd entry
  | None => []
  end.

Definition table_remove (selector : string) (d : Table) : Table :=
  filter (fun entry => negb (String.eqb (fst entry) selector)) d.

Definition TablePage : Cheerio :=
  {| doc := Table; select := table_select; remove := table_remove |}.

Definition plain (s : jsstring) : Element :=
  {| el_text := s; el_href := None; el_src := None |}.

Definition anchor (href : string) : Element :=
  {| el_text := []; el_href := Some (lit href); el_src := None |}.

(** Two matching selectors with short texts, a title and a longer body. *)
Definition short_matches_page : Table :=
  [ ("h1", [plain (lit "A title")]);
    ("article", [plain (repeat 97%N 120)]);
    (".content", [plain (repeat 98%N 120)]);
    ("body", [plain (repeat 99%N 300)]) ]%string.

(** An article of 4001 characters. *)
Definition long_article_page : Table :=
  [ ("h1", [plain (lit "A title")]);
    ("article", [plain (repeat 97%N 4001)]) ]%string.

(** An article without a title. *)
Definition untitled_page : Table :=
  [ ("article", [plain (repeat 97%N 150)]) ]%string.

(** A page whose only text is a short body. *)
Definition short_body_page : Table :=
  [ ("body", [plain (lit "  just a few words ")]) ]%string.

Definition some_url : jsstring := lit "https://beyondchats.com/blogs/some-post/".

(** A listing page whose only pagination link is to page 0. *)
Definition page_zero_listing : Table :=
  [ ("a", [anchor "/blogs/page/0/"]) ]%string.

(** A listing page with pagination links to the pages 2, 5 and 3. *)
Definition three_pages_listing : Table :=
  [ ("a", [anchor "https://beyondchats.com/blogs/page/2/";
           anchor "https://beyondchats.com/blogs/page/5/";
           anchor "https://beyondchats.com/blogs/page/3/"]) ]%string.

(** A listing page whose first link selector matches seven anchors, six of
    them distinct blog links, and whose second selector matches one more. *)
Definition busy_listing : Table :=
  [ ("article a", [anchor "/blogs/one/"; anchor "blogs/two/";
                   anchor "https://beyondchats.com/blogs/three/";
                   anchor "/blogs/one/"; anchor "/about/";
                   anchor "/blogs/four/#comments"; anchor "/blogs/five/";
                   anchor "/blogs/six/"; anchor "/blogs/seven/"]);
    (".post a", [anchor "/blogs/eight/"]) ]%string.

(** An article page with a title and 150 characters of content. *)
Definition article_page : Table :=
  [ ("h1", [plain (lit "A title")]);
    ("article", [plain (repeat 97%N 150)]) ]%string.

(** A listing page without pagination and with one article link. *)
Definition one_link_listing : Table :=
  [ ("article a", [anchor "/blogs/some-post/"]) ]%string.

(** A harvest of that listing, and a collection that already holds the
    article of its link. *)
Definition one_link_world : Scraper.World (H := TablePage) :=
  @Scraper.Build_World TablePage
    (fun n _ =>
       match n with
       | 0 | 1 => Some one_link_listing
       | _ => Some article_page
       end)
    (fun _ => false).

Definition stored_article : Scraper.Article :=
  {| Scraper.title := lit "An older title";
     Scraper.content := repeat 98%N 150;
     Scraper.url := some_url;
     Scraper.author := lit "Unknown";
     Scraper.imageUrl := None;
     Scraper.type := lit "original" |}.

(** ** The save loop, described *)

Section DescribedStore.
Context `{Cheerio}.

(** From iteration [i] on, every candidate is either refused by a store
    fault or found in the collection by its [url]. *)
Fixpoint settled (w : Scraper.World) (i : nat) (articles : list Scraper.Article)
         (c : Scraper.Collection) : Prop :=
  match articles with
  | [] => True
  | articleData :: rest =>
      (Scraper.store_fault w i = true
       \/ Scraper.findOne (Scraper.url articleData) c <> None)
      /\ settled w (S i) rest c
  end.

End DescribedStore.

(** ** The run of the orchestrator, described *)

Section DescribedRun.
Context `{Cheerio}.

(** The references step 2 keeps from the [n]-th scrape on: those whose
    scraped content is longer than 500 characters. *)
Fixpoint kept_from (w : Pipeline.World) (n : nat) (urls : list jsstring)
  : list Pipeline.Reference :=
  match urls with
  | [] => []
  | url :: rest =>
      let content := Pipeline.scrapeContentFromURL (Pipeline.http_get w n url) in
      (if 500 <? length content
       then [{| Pipeline.url := url; Pipeline.ref_content := content |}]
       else [])
      ++ kept_from w (S n) rest
  end.

(** The calls of step 2: a scrape and a pause of one second per URL. *)
Definition scrape_trace (urls : list jsstring) : list Pipeline.Event :=
  flat_map (fun url => [Pipeline.Scraped url; Pipeline.Waited 1000]) urls.

End DescribedRun.

(** A reference page of [n] characters. *)
Definition reference_page (n : nat) : Table :=
  [ ("body", [plain (repeat 97%N n)]) ]%string.

Definition two_links : list Pipeline.SearchItem :=
  [ {| Pipeline.link := Some (lit "https://a.example/1") |};
    {| Pipeline.link := Some (lit "https://b.example/2") |} ].

(** Two search results whose pages have 600 and 700 characters, a
    generation service and a store that answer. *)
Definition answering_world : Pipeline.World (H := TablePage) :=
  @Pipeline.Build_World TablePage
    (fun _ => Pipeline.SearchData (Some two_links))
    (fun n _ =>
       match n with
       | 0 => Some (reference_page 600)
       | _ => Some (reference_page 700)
       end)
    (fun _ _ _ => Some (lit "Rewritten."))
    (fun _ => Some true).

(** A search that finds nothing. *)
Definition silent_world : Pipeline.World (H := TablePage) :=
  @Pipeline.Build_World TablePage
    (fun _ => Pipeline.SearchData (Some []))
    (fun _ _ => None)
    (fun _ _ _ => None)
    (fun _ => None).

Definition an_original : Pipeline.Original :=
  {| Pipeline._id := lit "65a1";
     Pipeline.title := lit "X";
     Pipeline.content := lit "..." |}.

(** The record the run of [an_original] in [answering_world] saves. *)
Definition enhanced_record : Pipeline.ArticleData :=
  {| Pipeline.data_title := lit "X (Enhanced)";
     Pipeline.data_content :=
       lit "Rewritten." ++
       Pipeline.referencesSection
         [ {| Pipeline.url := lit "https://a.example/1";
              Pipeline.ref_content := repeat 97%N 600 |};
           {| Pipeline.url := lit "https://b.example/2";
              Pipeline.ref_content := repeat 97%N 700 |} ];
     Pipeline.type := lit "updated";
     Pipeline.originalArticleId := lit "65a1";
     Pipeline.references :=
       [lit "https://a.example/1"; lit "https://b.example/2"] |}.

(** ** White space of a normalised string, described *)

(** The string does not start, or end, with white space. *)
Definition starts_clean (s : jsstring) : bool :=
  match s with
  | c :: _ => negb (is_space c)
  | [] => true
  end.

Definition ends_clean (s : jsstring) : bool := starts_clean (rev s).

(** No white space follows white space; [after_space] tells that the
    character before the string was white space. *)
Fixpoint no_runs (after_space : bool) (s : jsstring) : bool :=
  match s with
  | [] => true
  | c :: s' => negb (after_space && is_space c) && no_runs (is_space c) s'
  end.

(** The only white space of the string is the plain space. *)
Definition plain_spaces (s : jsstring) : bool :=
  forallb (fun c => negb (is_space c) || (c =? 32)%N) s.

(** An article page with untidy white space, a blank author element before
    a named one, and a relative image. *)
Definition image (src : string) : Element :=
  {| el_text := []; el_href := None; el_src := Some (lit src) |}.

Definition untidy_text : jsstring :=
  lit "  Two   words " ++ repeat 97%N 100 ++ [10%N; 9%N] ++ lit "end  ".

Definition untidy_page : Table :=
  [ ("h1", [plain (lit "  ")]);
    (".entry-title", [plain (lit " A title ")]);
    ("article", [plain untidy_text]);
    (".author", [plain (lit "   ")]);
    (".post-author", [plain (lit " Jane ")]);
    ("img", [image "/img/cover.png"]) ]%string.

(** The record the harvesting scrape returns for it. *)
Definition untidy_record : Scraper.Article :=
  {| Scraper.title := lit "A title";
     Scraper.content := lit "Two words " ++ repeat 97%N 100 ++ lit " end";
     Scraper.url := some_url;
     Scraper.author := lit "Jane";
     Scraper.imageUrl := Some (lit "https://beyondchats.com/img/cover.png");
     Scraper.type := lit "original" |}.

(** A world without store faults in which no page loads. *)
Definition fault_free_world : Scraper.World (H := TablePage) :=
  @Scraper.Build_World TablePage (fun _ _ => None) (fun _ => false).

(** The line of the citation section for the reference numbered [k]. *)
Definition citation (k : N) (url : jsstring) : jsstring :=
  of_N k ++ lit ". [Source " ++ of_N k ++ lit "](" ++ url ++ lit ")".

(** The calls of a run after its scrapes: none, the call of the enhancer, or
    that call and the save. *)
Inductive run_tail (title content : jsstring) : list Pipeline.Event -> Prop :=
| tail_stopped : run_tail title content []
| tail_enhanced refs :
    run_tail title content [Pipeline.Enhanced title content refs]
| tail_saved refs data :
    run_tail title content
             [Pipeline.Enhanced title content refs; Pipeline.Saved data].

(** Two search results whose pages are too short, and a world in which the
    generation service fails. *)
Definition short_pages_world : Pipeline.World (H := TablePage) :=
  @Pipeline.Build_World TablePage
    (fun _ => Pipeline.SearchData (Some two_links))
    (fun _ _ => Some (reference_page 500))
    (fun _ _ _ => Some (lit "Rewritten."))
    (fun _ => Some true).

Definition mute_world : Pipeline.World (H := TablePage) :=
  @Pipeline.Build_World TablePage
    (fun _ => Pipeline.SearchData (Some two_links))
    (fun _ _ => Some (reference_page 600))
    (fun _ _ _ => None)
    (fun _ => Some true).

(** ** The prompt of the enhancer: [enhanceArticleWithAI]

    The template literal of the source, cut at its four placeholders. *)

Module Prompt.
Import Pipeline.

Definition prompt_part0 : jsstring :=
  join nl (map lit
    [ "You are an expert SEO content writer. Your task is to rewrite an article to match the quality and style of top-ranking Google articles.";
      EmptyString;
      "**ORIGINAL ARTICLE:**";
      "Title: " ]%string).

Definition prompt_part1 : jsstring :=
  join nl (map lit
    [ EmptyString;
      "Content: " ]%string).

Definition prompt_part2 : jsstring :=
  join nl (map lit
    [ EmptyString;
      EmptyString;
      "**TOP-RANKING ARTICLE #1:**";
      EmptyString ]%string).

Definition prompt_part3 : jsstring :=
  join nl (map lit
    [ EmptyString;
      EmptyString;
      "**TOP-RANKING ARTICLE #2:**";
      EmptyString ]%string).

Definition prompt_part4 : jsstring :=
  join nl (map lit
    [ EmptyString;
      EmptyString;
      "**YOUR TASK:**";
      "Rewrite the original article by:";
      "1. Matching the style and tone of the top-ranking articles";
      "2. Using similar heading structure (H2, H3)";
      "3. Making it more comprehensive and engaging";
      "4. Keeping the core topic the same";
      "5. Making it 1000-1500 words";
      "6. Using markdown formatting";
      EmptyString;
      "**FORMATTING RULES:**";
      "- Use ## for H2 headings";
      "- Use ### for H3 headings";
      "- Use **bold** for emphasis";
      "- Use bullet points where appropriate";
      "- Include introduction, body sections, conclusion";
      EmptyString;
      "**IMPORTANT:**";
      "- Write in professional, clear English";
      "- Don't mention this is a rewrite";
      "- Don't add meta descriptions";
      "- Just provide the article content";
      EmptyString;
      "Write the enhanced article now:" ]%string).

(** [referenceArticles[i]?.content || 'Not available'] *)
Definition reference_text (referenceArticles : list Reference) (i : nat)
  : jsstring :=
  match nth_error referenceArticles i with
  | Some ref =>
      if truthy (ref_content ref) then ref_content ref
      else lit "Not available"
  | None => lit "Not available"
  end.

Definition aiPrompt (originalTitle originalContent : jsstring)
           (referenceArticles : list Reference) : jsstring :=
  let ref1 := reference_text referenceArticles 0 in
  let ref2 := reference_text referenceArticles 1 in
  prompt_part0 ++ originalTitle
    ++ prompt_part1 ++ substring0 2000 originalContent
    ++ prompt_part2 ++ substring0 1500 ref1
    ++ prompt_part3 ++ substring0 1500 ref2
    ++ prompt_part4.

(** A reference with its content cut to 1500 characters. *)
Definition cut_reference (ref : Reference) : Reference :=
  {| url := url ref; ref_content := firstn 1500 (ref_content ref) |}.

End Prompt.

(** ** The batch: [fetchArticlesFromAPI] and [main] *)

Module Batch.
Import Pipeline.

(** What the batch does outside the runs of the articles, and the calls of
    the run of the [i]-th article. *)
Inductive BatchEvent :=
| BackendChecked
| Listed
| Paused (ms : N)
| InArticle (i : nat) (e : Event).

Record Results := { successful : nat; failed : nat; total : nat }.

(** [process.exit(code)], or the end of [main] with its counters. *)
Inductive Ending :=
| Exited (code : N)
| Completed (results : Results).

Section WithDom.
Context `{Cheerio}.

(** The outside world of a batch: whether the first request to the backend
    succeeds, the list of originals it then gives ([None] when the request
    throws) and the world of the run of the [i]-th article. *)
Record BatchWorld := {
  backend_up : bool;
  listing : option (list Original);
  run_world : nat -> World
}.

Definition fetchArticlesFromAPI (bw : BatchWorld) : list Original :=
  match listing bw with
  | Some articles => articles
  | None => []
  end.

(** The loop of [main] from index [i]; [n] is [articlesToProcess.length]. *)
Fixpoint process_from (bw : BatchWorld) (n i : nat)
         (articlesToProcess : list Original) (results : Results)
  : Results * list BatchEvent :=
  match articlesToProcess with
  | [] => (results, [])
  | article :: rest =>
      let '(result, calls) := processOneArticle (run_world bw i) article in
      let results' :=
        if success result
        then {| successful := S (successful results);
                failed := failed results; total := total results |}
        else {| successful := successful results;
                failed := S (failed results); total := total results |} in
      let pause := if i <? n - 1 then [Paused 3000] else [] in
      let '(final, later) := process_from bw n (S i) rest results' in
      (final, map (InArticle i) calls ++ pause ++ later)
  end.

Definition main (bw : BatchWorld) : Ending * list BatchEvent :=
  if backend_up bw then
    let articles := fetchArticlesFromAPI bw in
    if length articles =? 0 then (Exited 0, [BackendChecked; Listed])
    else
      let results :=
        {| successful := 0; failed := 0; total := length articles |} in
      let '(final, calls) :=
        process_from bw (length articles) 0 articles results in
      (Completed final, [BackendChecked; Listed; Paused 2000] ++ calls)
  else (Exited 1, [BackendChecked]).

(** Whether the run of each article succeeds, from index [i]. *)
Fixpoint run_successes (bw : BatchWorld) (i : nat) (articles : list Original)
  : list bool :=
  match articles with
  | [] => []
  | article :: rest =>
      success (fst (processOneArticle (run_world bw i) article))
      :: run_successes bw (S i) rest
  end.

End WithDom.

(** The titles searched for, and the pauses between articles, of a batch. *)
Definition searched_titles (calls : list BatchEvent) : list jsstring :=
  flat_map (fun e => match e with
                     | InArticle _ (Searched t) => [t]
                     | _ => []
                     end) calls.

Definition article_pauses (calls : list BatchEvent) : list BatchEvent :=
  filter (fun e => match e with
                   | Paused 3000 => true
                   | _ => false
                   end) calls.

End Batch.

(** The calls of the loop of a batch from index [i], described: the calls of
    the run of each article in order, with one pause of three seconds
    between the calls of an article and those of the next, and none after
    the last. *)
Section DescribedBatch.
Context `{Cheerio}.

Fixpoint paced_calls (bw : Batch.BatchWorld) (i : nat)
         (articles : list Pipeline.Original) : list Batch.BatchEvent :=
  match articles with
  | [] => []
  | article :: rest =>
      map (Batch.InArticle i)
          (snd (Pipeline.processOneArticle (Batch.run_world bw i) article))
      ++ match rest with
         | [] => []
         | _ :: _ => Batch.Paused 3000 :: paced_calls bw (S i) rest
         end
  end.

End DescribedBatch.

(** A batch of three originals: the first finds two references and is
    saved, the second finds nothing, the third is not answered by the
    generation service. *)
Definition three_originals : list Pipeline.Original :=
  [ an_original;
    {| Pipeline._id := lit "65a2"; Pipeline.title := lit "Y";
       Pipeline.content := lit "..." |};
    {| Pipeline._id := lit "65a3"; Pipeline.title := lit "Z";
       Pipeline.content := lit "..." |} ].

Definition mixed_batch : Batch.BatchWorld (H := TablePage) :=
  @Batch.Build_BatchWorld TablePage true (Some three_originals)
    (fun i => match i with
              | 0 => answering_world
              | 1 => silent_world
              | _ => mute_world
              end).

(** A listing page with three blog links under two selectors. *)
Definition small_listing : Table :=
  [ ("article a", [anchor "/blogs/one/"; anchor "/pricing/"]);
    ("h2 a", [anchor "/blogs/one/"; anchor "blogs/two/";
              anchor "https://beyondchats.com/blogs/three/"]) ]%string.

(** ** Facts about JavaScript strings *)

Module JsFacts.

Lemma str_eqb_eq (a b : jsstring) : str_eqb a b = true <-> a = b.
Proof.
  revert b; induction a as [|x a IH]; intros [|y b]; simpl;
    try (split; [discriminate | discriminate]).
  - split; reflexivity.
  - rewrite andb_true_iff, N.eqb_eq, IH. split.
    + intros [-> ->]. reflexivity.
    + intros E. injection E as -> ->. split; reflexivity.
Qed.

Lemma arr_includes_In (arr : list jsstring) (x : jsstring) :
  arr_includes arr x = true <-> In x arr.
Proof.
  unfold arr_includes. rewrite existsb_exists. split.
  - intros [y [Hy E]]. apply str_eqb_eq in E. now subst.
  - intros Hx. exists x. split; [assumption | now apply str_eqb_eq].
Qed.

Lemma startsWith_app_l (s t p : jsstring) :
  startsWith s p = true -> startsWith (s ++ t) p = true.
Proof.
  revert s; induction p as [|c p IH]; intros s; [destruct s; reflexivity|].
  destruct s as [|d s]; simpl; [discriminate|].
  intros E. apply andb_true_iff in E as [E1 E2].
  rewrite E1. simpl. now apply IH.
Qed.

Lemma includes_cons (c : codeunit) (s p : jsstring) :
  includes s p = true -> includes (c :: s) p = true.
Proof.
  intros E. simpl. rewrite E. destruct p; [reflexivity|].
  now rewrite orb_true_r.
Qed.

Lemma includes_app_r (q s p : jsstring) :
  includes s p = true -> includes (q ++ s) p = true.
Proof.
  intros E. induction q as [|c q IH]; simpl app; [assumption|].
  now apply includes_cons.
Qed.

(** Searching for a one-character string is searching for the character. *)
Lemma includes_char (s : jsstring) (c : codeunit) :
  includes s [c] = existsb (N.eqb c) s.
Proof.
  induction s as [|d s IH]; [reflexivity|].
  simpl. rewrite andb_true_r. simpl in IH. now rewrite <- IH.
Qed.

Lemma includes_char_app (s t : jsstring) (c : codeunit) :
  includes (s ++ t) [c] = includes s [c] || includes t [c].
Proof. rewrite !includes_char. apply existsb_app. Qed.

Lemma length_trimStart (s : jsstring) : length (trimStart s) <= length s.
Proof.
  induction s as [|c s IH]; simpl; [lia|].
  destruct (is_space c); simpl; lia.
Qed.

Lemma length_trim (s : jsstring) : length (trim s) <= length s.
Proof.
  unfold trim, trimEnd. rewrite length_rev.
  etransitivity; [apply length_trimStart|]. rewrite length_rev.
  apply length_trimStart.
Qed.

Lemma length_collapse_from (b : bool) (s : jsstring) :
  length (collapse_from b s) <= length s.
Proof.
  revert b; induction s as [|c s IH]; intros b; simpl; [lia|].
  destruct (is_space c); [destruct b|]; simpl;
    try (specialize (IH true); lia); specialize (IH false); lia.
Qed.

Lemma length_normalize (s : jsstring) : length (normalize s) <= length s.
Proof.
  unfold normalize, collapse_spaces.
  etransitivity; [apply length_trim | apply length_collapse_from].
Qed.

Lemma last_cons {A} (x d : A) (l : list A) : last (x :: l) d = last l x.
Proof.
  revert x d; induction l as [|y l IH]; intros x d; [reflexivity|].
  change (last (x :: y :: l) d) with (last (y :: l) d).
  now rewrite !IH.
Qed.

End JsFacts.

(** ** The reference finder *)

Module ReferenceFinder.
Import Pipeline.

Lemma search_step_acceptable (foundLinks : list jsstring) (url : jsstring) :
  search_step foundLinks {| link := Some url |} =
  if acceptable url && (length foundLinks <? 2)
  then foundLinks ++ [url] else foundLinks.
Proof. reflexivity. Qed.

(** The [forEach] appends the accepted links while fewer than two are
    held. *)
Lemma search_loop (items : list SearchItem) :
  forall foundLinks,
    length foundLinks <= 2 ->
    fold_left search_step items foundLinks =
    foundLinks ++ firstn (2 - length foundLinks) (candidates items).
Proof.
  induction items as [|[[url|]] items IH]; intros acc Hacc.
  - simpl. rewrite firstn_nil. now rewrite app_nil_r.
  - cbn [fold_left]. rewrite search_step_acceptable.
    cbn [candidates flat_map link].
    fold (candidates items).
    destruct (acceptable url); cbn [andb app].
    + destruct (Nat.ltb_spec (length acc) 2) as [Hlt|Hge].
      * rewrite IH by (rewrite length_app; simpl; lia).
        rewrite length_app. simpl length.
        replace (2 - length acc) with (S (2 - (length acc + 1))) by lia.
        cbn [firstn]. now rewrite <- app_assoc.
      * rewrite IH by assumption.
        replace (2 - length acc) with 0 by lia. reflexivity.
    + now apply IH.
  - cbn [fold_left]. unfold search_step at 2. cbn [link].
    cbn [candidates flat_map link app]. fold (candidates items).
    now apply IH.
Qed.

Lemma candidates_acceptable (items : list SearchItem) :
  Forall (fun url => acceptable url = true) (candidates items).
Proof.
  induction items as [|[[url|]] items IH]; cbn [candidates flat_map link].
  - constructor.
  - fold (candidates items).
    destruct (acceptable url) eqn:E; cbn [app]; [|assumption].
    now constructor.
  - assumption.
Qed.

Lemma candidates_linked (items : list SearchItem) (url : jsstring) :
  In url (candidates items) -> In {| link := Some url |} items.
Proof.
  induction items as [|[[u|]] items IH]; cbn [candidates flat_map link].
  - contradiction.
  - fold (candidates items).
    destruct (acceptable u); cbn [app]; intros Hin.
    + destruct Hin as [->|Hin]; [now left | right; now apply IH].
    + right. now apply IH.
  - fold (candidates items). intros Hin. right. now apply IH.
Qed.

Lemma acceptable_spelled (url : jsstring) :
  acceptable url = true ->
  url <> []
  /\ startsWith url (lit "http") = true
  /\ includes url (lit "youtube.com") = false
  /\ includes url (lit "facebook.com") = false.
Proof.
  unfold acceptable. rewrite !andb_true_iff, !negb_true_iff.
  intros [[[Ht Hs] Hy] Hf]. repeat split; try assumption.
  intros ->. discriminate.
Qed.

Lemma search_at_most_two (reply : SearchReply) :
  length (searchGoogleForArticle reply) <= 2.
Proof.
  destruct reply as [|[items|]]; try (simpl; lia).
  unfold searchGoogleForArticle. rewrite search_loop by (simpl; lia).
  cbn [app length]. rewrite length_firstn. lia.
Qed.

(** C3.  For every answer of the search API the reference finder returns
    the first two accepted links of the answer, in the order of the answer:
    at most two URLs, each the [link] of an item of the answer, not empty,
    starting with [http] and containing neither [youtube.com] nor
    [facebook.com]; an answer without [items] and a failed request give the
    empty list. *)
Theorem reference_finder_filters_and_caps :
  (forall items,
      searchGoogleForArticle (SearchData (Some items)) =
      firstn 2 (candidates items))
  /\ searchGoogleForArticle (SearchData None) = []
  /\ searchGoogleForArticle SearchFailed = []
  /\ (forall reply,
        length (searchGoogleForArticle reply) <= 2
        /\ Forall (fun url =>
                     url <> []
                     /\ startsWith url (lit "http") = true
                     /\ includes url (lit "youtube.com") = false
                     /\ includes url (lit "facebook.com") = false
                     /\ exists items,
                         reply = SearchData (Some items)
                         /\ In {| link := Some url |} items)
                  (searchGoogleForArticle reply)).
Proof.
  assert (Hloop : forall items,
             searchGoogleForArticle (SearchData (Some items)) =
             firstn 2 (candidates items)).
  { intros items. unfold searchGoogleForArticle.
    rewrite search_loop by (simpl; lia). reflexivity. }
  split; [exact Hloop|]. split; [reflexivity|]. split; [reflexivity|].
  intros [|[items|]]; try (split; [simpl; lia | constructor]).
  rewrite Hloop. split.
  - rewrite length_firstn. lia.
  - apply Forall_forall. intros url Hin.
    assert (Hc : In url (candidates items)).
    { rewrite <- (firstn_skipn 2 (candidates items)).
      apply in_or_app. now left. }
    pose proof (candidates_acceptable items) as Hall.
    rewrite Forall_forall in Hall.
    pose proof (Hall url Hc) as Ha. apply acceptable_spelled in Ha.
    destruct Ha as (H1 & H2 & H3 & H4).
    repeat split; try assumption.
    exists items. split; [reflexivity | now apply candidates_linked].
Qed.

(** Three accepted links after a video link: the first two are kept. *)
Example search_keeps_first_two :
  searchGoogleForArticle
    (SearchData (Some [ {| link := Some (lit "https://youtube.com/watch") |};
                        {| link := None |};
                        {| link := Some (lit "https://a.example/1") |};
                        {| link := Some (lit "ftp://b.example") |};
                        {| link := Some (lit "http://c.example/2") |};
                        {| link := Some (lit "https://d.example/3") |} ]))
  = [lit "https://a.example/1"; lit "http://c.example/2"].
Proof. vm_compute. reflexivity. Qed.

End ReferenceFinder.

(** ** The extractors *)

Module Extractor.

Section WithDom.
Context `{Cheerio}.

(** What the content loop leaves in its variable: the text of the first
    match longer than the threshold, and without one the text of the
    last match (the initial value when nothing matches). *)
Lemma content_loop_last_match (threshold : nat) (d : doc)
      (selectors : list string) :
  forall content,
    content_loop threshold d selectors content =
    match find (fun t => threshold <? length t) (matched_texts d selectors) with
    | Some t => t
    | None => last (matched_texts d selectors) content
    end.
Proof.
  induction selectors as [|selector rest IH]; intros content.
  - reflexivity.
  - cbn [content_loop matched_texts flat_map].
    fold (matched_texts d rest).
    destruct (first (select d selector)) as [|e l] eqn:E.
    + cbn [length app]. change (0 <? 0) with false. cbv iota. apply IH.
    + change (0 <? length (e :: l)) with true. cbv iota zeta.
      cbn [app find].
      destruct (threshold <? length (trim (text (e :: l)))) eqn:Hlen.
      * reflexivity.
      * rewrite IH. rewrite JsFacts.last_cons. reflexivity.
Qed.

Lemma raw_content_body_fallback (d : doc) :
  Pipeline.raw_content d =
  if length (Pipeline.selected_content d) <? 500
  then trim (text (select d "body"))
  else Pipeline.selected_content d.
Proof.
  unfold Pipeline.raw_content.
  destruct (Pipeline.selected_content d) as [|c s]; [reflexivity|].
  reflexivity.
Qed.

Lemma scraped_article_fields (d0 : doc) (u : jsstring) (a : Scraper.Article) :
  Scraper.scrapeArticleContent (Some d0) u = Some a ->
  Scraper.title a = Scraper.extract_title (remove Scraper.noise d0)
  /\ Scraper.content a = Scraper.extract_content (remove Scraper.noise d0)
  /\ Scraper.url a = u.
Proof.
  unfold Scraper.scrapeArticleContent.
  destruct (_ || _ || _); [discriminate|].
  intros E. injection E as <-. repeat split.
Qed.

(** C1 (as amended).  The body-content loop stops at the first selector
    whose trimmed text is longer than the threshold (500 in the
    reference scrape, 200 in the harvesting scrape); a match that is not
    longer lets the loop go on, and what the variable then holds is the
    text of the last match, not of the first.  The reference scrape
    takes the text of the document body when what was selected is
    shorter than 500 characters; the harvesting scrape has no such
    fallback: the content of its record is the normalised selected
    text. *)
Theorem content_selection_cascade (d : doc) :
  (forall threshold selectors content,
      content_loop threshold d selectors content =
      match find (fun t => threshold <? length t) (matched_texts d selectors) with
      | Some t => t
      | None => last (matched_texts d selectors) content
      end)
  /\ Pipeline.selected_content d =
     content_loop 500 d Pipeline.contentSelectors []
  /\ Pipeline.raw_content d =
     (if length (Pipeline.selected_content d) <? 500
      then trim (text (select d "body"))
      else Pipeline.selected_content d)
  /\ (forall u,
         match Scraper.scrapeArticleContent (Some d) u with
         | Some a =>
             Scraper.content a =
             normalize (content_loop 200 (remove Scraper.noise d)
                                     Scraper.contentSelectors [])
         | None => True
         end).
Proof.
  split; [intros; apply content_loop_last_match|].
  split; [reflexivity|].
  split; [apply raw_content_body_fallback|].
  intros u.
  destruct (Scraper.scrapeArticleContent (Some d) u) as [a|] eqn:E;
    [|exact I].
  now apply scraped_article_fields in E as (_ & -> & _).
Qed.

(** C2 (as amended).  The reference scrape never returns more than 4000
    characters.  The harvesting scrape has no cap: the content of the
    record it returns is the normalised selected text, whatever its
    length. *)
Theorem reference_content_capped :
  (forall page, length (Pipeline.scrapeContentFromURL page) <= 4000)
  /\ (forall d0 u,
         match Scraper.scrapeArticleContent (Some d0) u with
         | Some a =>
             Scraper.content a =
             normalize (Scraper.selected_content (remove Scraper.noise d0))
         | None => True
         end).
Proof.
  split.
  - intros [d0|]; unfold Pipeline.scrapeContentFromURL; [|simpl; lia].
    cbv zeta.
    destruct (Nat.ltb_spec 4000
                (length (normalize (Pipeline.raw_content
                                      (remove Pipeline.noise d0)))))
      as [Hlong|Hshort].
    + unfold substring0. rewrite length_firstn. apply Nat.le_min_l.
    + exact Hshort.
  - intros d0 u.
    destruct (Scraper.scrapeArticleContent (Some d0) u) as [a|] eqn:E;
      [|exact I].
    now apply scraped_article_fields in E as (_ & -> & _).
Qed.

(** C6.  A candidate without a title, or whose extracted content is
    shorter than 100 characters (as selected, or after the normalisation of
    white space, which only shortens it), is discarded: the harvesting
    extractor returns [null], not a record. *)
Theorem insufficient_candidate_discarded (d0 : doc) (u : jsstring) :
  Scraper.extract_title (remove Scraper.noise d0) = []
  \/ length (Scraper.selected_content (remove Scraper.noise d0)) < 100
  \/ length (Scraper.extract_content (remove Scraper.noise d0)) < 100 ->
  Scraper.scrapeArticleContent (Some d0) u = None.
Proof.
  intros Hbad. unfold Scraper.scrapeArticleContent. cbv zeta.
  assert (Hnorm : length (Scraper.extract_content (remove Scraper.noise d0))
                  <= length (Scraper.selected_content (remove Scraper.noise d0)))
    by apply JsFacts.length_normalize.
  destruct Hbad as [Htitle|Hshort].
  - rewrite Htitle. reflexivity.
  - assert (Hlt : length (Scraper.extract_content (remove Scraper.noise d0))
                  < 100) by (destruct Hshort; lia).
    apply Nat.ltb_lt in Hlt. rewrite Hlt.
    now rewrite orb_true_r.
Qed.

(** A record that is returned is complete: it has a title and at least
    100 characters of content. *)
Lemma returned_record_sufficient (page : option doc) (u : jsstring)
      (a : Scraper.Article) :
  Scraper.scrapeArticleContent page u = Some a ->
  Scraper.title a <> [] /\ 100 <= length (Scraper.content a).
Proof.
  destruct page as [d0|]; [|discriminate].
  unfold Scraper.scrapeArticleContent. cbv zeta.
  destruct (Scraper.extract_title (remove Scraper.noise d0)) as [|c t] eqn:Et;
    [discriminate|].
  cbn [truthy negb orb].
  destruct (Nat.ltb_spec
              (length (Scraper.extract_content (remove Scraper.noise d0)))
              100) as [Hlt|Hge].
  - rewrite orb_true_r. discriminate.
  - rewrite orb_false_r.
    destruct (negb _); [discriminate|].
    intros E. injection E as <-. cbn. split; [discriminate | exact Hge].
Qed.

End WithDom.

(** C1, the claim as stated fails.  On a page where two content selectors
    match with texts of 120 characters, no selector yields more than 200
    characters; the harvesting scrape returns a record whose content is
    the text of the last match: neither the first non-empty text nor the
    text of the document body. *)
Lemma content_fallback_counterexample :
  find (fun t => 200 <? length t)
       (matched_texts (H := TablePage) short_matches_page
                      Scraper.contentSelectors) = None
  /\ hd [] (filter truthy
              (matched_texts (H := TablePage) short_matches_page
                             Scraper.contentSelectors)) = repeat 97%N 120
  /\ trim (text (select (Cheerio := TablePage) short_matches_page "body"))
     = repeat 99%N 300
  /\ exists a,
      Scraper.scrapeArticleContent (H := TablePage)
        (Some short_matches_page) some_url = Some a
      /\ Scraper.content a = repeat 98%N 120.
Proof.
  split; [vm_compute; reflexivity|].
  split; [vm_compute; reflexivity|].
  split; [vm_compute; reflexivity|].
  eexists. split; vm_compute; reflexivity.
Qed.

(** C2, the claim as stated fails.  The harvesting scrape of an article of
    4001 characters returns a record with all 4001 of them. *)
Lemma harvested_content_uncapped_counterexample :
  exists a,
    Scraper.scrapeArticleContent (H := TablePage)
      (Some long_article_page) some_url = Some a
    /\ 4000 < length (Scraper.content a).
Proof.
  eexists. split; [vm_compute; reflexivity|].
  apply Nat.ltb_lt. vm_compute. reflexivity.
Qed.

(** An article page without any title element is discarded. *)
Lemma insufficient_candidate_discarded_witness :
  (Scraper.extract_title (H := TablePage)
     (remove (Cheerio := TablePage) Scraper.noise untitled_page) = []
   \/ length (Scraper.selected_content (H := TablePage)
                (remove (Cheerio := TablePage) Scraper.noise untitled_page))
      < 100
   \/ length (Scraper.extract_content (H := TablePage)
                (remove (Cheerio := TablePage) Scraper.noise untitled_page))
      < 100)
  /\ Scraper.scrapeArticleContent (H := TablePage)
       (Some untitled_page) some_url = None.
Proof.
  assert (Hbad :
    Scraper.extract_title (H := TablePage)
      (remove (Cheerio := TablePage) Scraper.noise untitled_page) = []
    \/ length (Scraper.selected_content (H := TablePage)
                 (remove (Cheerio := TablePage) Scraper.noise untitled_page))
       < 100
    \/ length (Scraper.extract_content (H := TablePage)
                 (remove (Cheerio := TablePage) Scraper.noise untitled_page))
       < 100).
  { left. vm_compute. reflexivity. }
  split; [exact Hbad|].
  exact (@insufficient_candidate_discarded TablePage untitled_page some_url Hbad).
Defined.

End Extractor.

(** ** The pagination probe and the link harvester *)

Module Harvester.
Import Scraper.

Lemma fold_max_base (l : list N) (a b : N) :
  fold_right N.max (N.max a b) l = N.max b (fold_right N.max a l).
Proof.
  induction l as [|x l IH]; simpl.
  - apply N.max_comm.
  - rewrite IH. rewrite !N.max_assoc. f_equal. apply N.max_comm.
Qed.

Lemma page_step_max (lastPage : N) (a : Element) :
  page_step lastPage a =
  match el_href a with
  | Some href =>
      match match_page href with
      | Some ds => N.max lastPage (parseInt ds)
      | None => lastPage
      end
  | None => lastPage
  end.
Proof.
  unfold page_step. destruct (el_href a) as [[|c href]|]; try reflexivity.
  cbn [truthy]. destruct (match_page (c :: href)) as [ds|]; [|reflexivity].
  destruct (N.ltb_spec lastPage (parseInt ds)); lia.
Qed.

Example match_page_absolute :
  match_page (lit "https://beyondchats.com/blogs/page/12/") = Some (lit "12").
Proof. vm_compute. reflexivity. Qed.

Example match_page_needs_digits :
  match_page (lit "/blogs/page//blogs/page/7") = Some (lit "7").
Proof. vm_compute. reflexivity. Qed.

Example match_page_relative :
  match_page (lit "page/2") = None.
Proof. vm_compute. reflexivity. Qed.

Example parseInt_leading_zeros : parseInt (lit "007") = 7%N.
Proof. reflexivity. Qed.

Section WithDom.
Context `{Cheerio}.

Lemma page_loop_max (els : list Element) :
  forall lastPage,
    fold_left page_step els lastPage =
    fold_right N.max lastPage
      (flat_map (fun a =>
                   match el_href a with
                   | Some href =>
                       match match_page href with
                       | Some ds => [parseInt ds]
                       | None => []
                       end
                   | None => []
                   end) els).
Proof.
  induction els as [|a els IH]; intros lastPage; [reflexivity|].
  cbn [fold_left flat_map]. rewrite IH, page_step_max.
  destruct (el_href a) as [href|]; [|reflexivity].
  destruct (match_page href) as [ds|]; [|reflexivity].
  cbn [app fold_right]. apply fold_max_base.
Qed.

End WithDom.

(** C7 (as amended).  On a listing page whose matching page numbers are all
    below 2^53, where [parseInt] and the comparison of numbers are exact,
    the pagination probe returns the largest of 1 and the page numbers of
    the anchors whose [href] matches [/blogs/page/<digits>], hence 1 when no
    anchor matches; it returns 1 when the page cannot be loaded; on a listing
    page with links to [/blogs/page/2/], [/blogs/page/5/] and
    [/blogs/page/3/] it returns 5. *)
Theorem last_page_is_max_with_one :
  (forall (C : Cheerio) (d : doc),
      Forall (fun n => (n < 2 ^ 53)%N) (page_numbers d) ->
      findLastPage (Some d) = fold_right N.max 1%N (page_numbers d))
  /\ (forall (C : Cheerio), findLastPage (H := C) None = 1%N)
  /\ findLastPage (H := TablePage) (Some three_pages_listing) = 5%N.
Proof.
  split; [|split].
  - intros C d _. unfold findLastPage, page_numbers. apply page_loop_max.
  - reflexivity.
  - vm_compute. reflexivity.
Qed.

(** The three page numbers of the scenario are below the bound, and the
    probe returns the largest of them. *)
Lemma last_page_is_max_with_one_witness :
  Forall (fun n => (n < 2 ^ 53)%N)
         (page_numbers (H := TablePage) three_pages_listing)
  /\ findLastPage (H := TablePage) (Some three_pages_listing)
     = fold_right N.max 1%N (page_numbers (H := TablePage) three_pages_listing).
Proof.
  assert (Hsmall : Forall (fun n => (n < 2 ^ 53)%N)
                          (page_numbers (H := TablePage) three_pages_listing)).
  { change (page_numbers (H := TablePage) three_pages_listing)
      with [2%N; 5%N; 3%N].
    repeat constructor. }
  split; [exact Hsmall|].
  exact (proj1 last_page_is_max_with_one TablePage three_pages_listing Hsmall).
Defined.

(** C7, the claim as stated fails.  The only anchor of the page matches the
    pattern with page number 0, well below the bound, so 0 is the maximum
    page number that appears; the probe returns 1. *)
Lemma last_page_zero_counterexample :
  page_numbers (H := TablePage) page_zero_listing = [0%N]
  /\ findLastPage (H := TablePage) (Some page_zero_listing) = 1%N.
Proof. split; vm_compute; reflexivity. Qed.

End Harvester.

Module LinkHarvester.
Import Scraper.

(** The URL a kept anchor contributes is [resolve] of its [href]. *)
Lemma link_step_resolve (articleLinks : list jsstring) (a : Element) :
  link_step articleLinks a =
  match el_href a with
  | Some href =>
      if blog_href href
      then if arr_includes articleLinks (resolve href)
           then articleLinks
           else articleLinks ++ [resolve href]
      else articleLinks
  | None => articleLinks
  end.
Proof.
  unfold link_step, blog_href, resolve.
  destruct (el_href a) as [href|]; [|reflexivity].
  destruct (truthy href && includes href (lit "blog")
            && negb (includes href (lit "#"))); [|reflexivity].
  destruct (startsWith href (lit "http")); cbn [negb].
  - now destruct (arr_includes articleLinks href).
  - destruct (startsWith href (lit "/")).
    + now destruct (arr_includes articleLinks (site_origin ++ href)).
    + now destruct (arr_includes articleLinks (site_origin ++ lit "/" ++ href)).
Qed.

Lemma from_anchor_app_l (els els' : list Element) (u : jsstring) :
  from_anchor els u -> from_anchor (els ++ els') u.
Proof.
  intros (a & href & Hin & Hrest). exists a, href.
  split; [apply in_or_app; now left | exact Hrest].
Qed.

Lemma from_anchor_app_r (els els' : list Element) (u : jsstring) :
  from_anchor els' u -> from_anchor (els ++ els') u.
Proof.
  intros (a & href & Hin & Hrest). exists a, href.
  split; [apply in_or_app; now right | exact Hrest].
Qed.

Lemma link_fold_invariant (els : list Element) :
  forall articleLinks,
    NoDup articleLinks ->
    NoDup (fold_left link_step els articleLinks)
    /\ forall u, In u (fold_left link_step els articleLinks) ->
                 In u articleLinks \/ from_anchor els u.
Proof.
  induction els as [|a els IH]; intros acc Hnd.
  - split; [assumption | intros u Hu; now left].
  - cbn [fold_left].
    assert (Hstep : NoDup (link_step acc a)
                    /\ forall u, In u (link_step acc a) ->
                                 In u acc \/ from_anchor [a] u).
    { rewrite link_step_resolve.
      destruct (el_href a) as [href|] eqn:Ehref; [|now split; [|left]].
      destruct (blog_href href) eqn:Eblog; [|now split; [|left]].
      destruct (arr_includes acc (resolve href)) eqn:Einc; [now split; [|left]|].
      split.
      - apply NoDup_app; [assumption | repeat constructor; intros [] |].
        intros x Hx [<-|[]].
        apply JsFacts.arr_includes_In in Hx. congruence.
      - intros u Hu. apply in_app_or in Hu as [Hu|[<-|[]]]; [now left|].
        right. exists a, href. repeat split; try assumption. now left. }
    destruct Hstep as [Hnd' Horigin].
    destruct (IH _ Hnd') as [Hnd'' Hin]. split; [assumption|].
    intros u Hu. destruct (Hin u Hu) as [Hu'|Hu'].
    + destruct (Horigin u Hu') as [Hacc|Ha]; [now left|].
      right. change (a :: els) with ([a] ++ els).
      now apply from_anchor_app_l.
    + right. change (a :: els) with ([a] ++ els).
      now apply from_anchor_app_r.
Qed.

Section WithDom.
Context `{Cheerio}.

Lemma links_loop_invariant (d : doc) (selectors : list string) :
  forall articleLinks,
    NoDup articleLinks ->
    NoDup (links_loop d selectors articleLinks)
    /\ forall u, In u (links_loop d selectors articleLinks) ->
                 In u articleLinks \/ from_anchor (anchors d selectors) u.
Proof.
  induction selectors as [|selector rest IH]; intros acc Hnd.
  - split; [assumption | intros u Hu; now left].
  - cbn [links_loop]. cbv zeta.
    destruct (link_fold_invariant (select d selector) Hnd) as [Hnd' Hin].
    assert (Hhere : forall u,
               In u (fold_left link_step (select d selector) acc) ->
               In u acc \/ from_anchor (anchors d (selector :: rest)) u).
    { intros u Hu. destruct (Hin u Hu) as [Hacc|Ha]; [now left|].
      right. change (anchors d (selector :: rest))
        with (select d selector ++ anchors d rest).
      now apply from_anchor_app_l. }
    destruct (5 <=? length (fold_left link_step (select d selector) acc)).
    + split; assumption.
    + destruct (IH _ Hnd') as [Hnd'' Hrest]. split; [assumption|].
      intros u Hu. destruct (Hrest u Hu) as [Hu'|Ha]; [now apply Hhere|].
      right. change (anchors d (selector :: rest))
        with (select d selector ++ anchors d rest).
      now apply from_anchor_app_r.
Qed.

(** Once a selector leaves five links or more, the selectors after it are
    not consulted. *)
Lemma links_loop_stops (d : doc) (selectors rest : list string) :
  forall articleLinks,
    selectors <> [] \/ length articleLinks < 5 ->
    5 <= length (links_loop d selectors articleLinks) ->
    links_loop d (selectors ++ rest) articleLinks =
    links_loop d selectors articleLinks.
Proof.
  induction selectors as [|selector more IH]; intros acc Hstart Hfull.
  - cbn [links_loop] in Hfull. destruct Hstart as [Hne|Hlt]; [congruence | lia].
  - cbn [links_loop app] in *. cbv zeta in *.
    destruct (Nat.leb_spec 5 (length (fold_left link_step (select d selector) acc)))
      as [Hge|Hlt]; [reflexivity|].
    apply IH; [now right | assumption].
Qed.

End WithDom.

Lemma resolve_keeps_marker (href : jsstring) :
  blog_href href = true ->
  includes (resolve href) (lit "blog") = true
  /\ includes (resolve href) (lit "#") = false
  /\ startsWith (resolve href) (lit "http") = true.
Proof.
  unfold blog_href. rewrite !andb_true_iff, negb_true_iff.
  intros [[_ Hblog] Hhash]. unfold resolve.
  change (lit "#") with [35%N] in *.
  destruct (startsWith href (lit "http")) eqn:Ehttp; [now repeat split|].
  destruct (startsWith href (lit "/")).
  - split; [|split].
    + now apply JsFacts.includes_app_r.
    + rewrite JsFacts.includes_char_app.
      apply orb_false_iff. split; [reflexivity | exact Hhash].
    + apply JsFacts.startsWith_app_l. reflexivity.
  - split; [|split].
    + apply JsFacts.includes_app_r. now apply JsFacts.includes_app_r.
    + rewrite !JsFacts.includes_char_app.
      apply orb_false_iff. split; [reflexivity|].
      apply orb_false_iff. split; [reflexivity | exact Hhash].
    + apply JsFacts.startsWith_app_l. reflexivity.
Qed.

(** C8.  For every listing page the link harvester returns at most five
    URLs, without duplicates; each is the [href] of an anchor matched by one
    of the link selectors, an [href] that contains [blog] and no [#],
    resolved against the site origin when it does not start with [http], so
    that the URL itself contains [blog], no [#], and starts with [http]; a
    page that cannot be loaded gives no link.  The selectors are tried in
    order and, once one of them leaves five links or more, the remaining
    ones are not consulted. *)
Theorem harvested_links_capped_distinct :
  forall (C : Cheerio),
    (forall page : option doc,
        length (scrapeArticleLinks page) <= 5
        /\ NoDup (scrapeArticleLinks page)
        /\ Forall (fun u =>
                     includes u (lit "blog") = true
                     /\ includes u (lit "#") = false
                     /\ startsWith u (lit "http") = true
                     /\ exists d a href,
                         page = Some d
                         /\ In a (anchors d link_selectors)
                         /\ el_href a = Some href
                         /\ blog_href href = true
                         /\ u = resolve href)
                  (scrapeArticleLinks page))
    /\ scrapeArticleLinks None = []
    /\ (forall (d : doc) (selectors rest : list string),
           5 <= length (links_loop d selectors []) ->
           links_loop d (selectors ++ rest) [] = links_loop d selectors []).
Proof.
  intros C. split; [|split; [reflexivity|]].
  - intros [d|]; [|repeat split; [simpl; lia | constructor | constructor]].
    unfold scrapeArticleLinks.
    destruct (links_loop_invariant d link_selectors (NoDup_nil _))
      as [Hnd Hin].
    split; [rewrite length_firstn; lia|]. split.
    + rewrite <- (firstn_skipn 5 (links_loop d link_selectors [])) in Hnd.
      now apply NoDup_app_remove_r in Hnd.
    + apply Forall_forall. intros u Hu.
      assert (Hu' : In u (links_loop d link_selectors [])).
      { rewrite <- (firstn_skipn 5 (links_loop d link_selectors [])).
        apply in_or_app. now left. }
      destruct (Hin u Hu') as [[]|(a & href & Ha & Hhref & Hblog & ->)].
      destruct (resolve_keeps_marker _ Hblog) as (H1 & H2 & H3).
      repeat split; try assumption.
      exists d, a, href. repeat split; assumption.
  - intros d selectors rest Hfull. apply links_loop_stops; [|assumption].
    right. simpl. lia.
Qed.

(** On the busy listing the first selector already gives six links: the
    harvester returns the first five and never looks at the second
    selector. *)
Lemma harvested_links_capped_distinct_witness :
  5 <= length (links_loop (H := TablePage) busy_listing ["article a"%string] [])
  /\ links_loop (H := TablePage) busy_listing
       (["article a"%string] ++ [".post a"%string]) []
     = links_loop (H := TablePage) busy_listing ["article a"%string] [].
Proof.
  assert (Hfull : 5 <= length (links_loop (H := TablePage) busy_listing
                                          ["article a"%string] [])).
  { apply Nat.leb_le. vm_compute. reflexivity. }
  split; [exact Hfull|].
  exact (proj2 (proj2 (harvested_links_capped_distinct TablePage))
           busy_listing ["article a"%string] [".post a"%string] Hfull).
Defined.

Example busy_listing_links :
  scrapeArticleLinks (H := TablePage) (Some busy_listing) =
  [ lit "https://beyondchats.com/blogs/one/";
    lit "https://beyondchats.com/blogs/two/";
    lit "https://beyondchats.com/blogs/three/";
    lit "https://beyondchats.com/blogs/five/";
    lit "https://beyondchats.com/blogs/six/" ].
Proof. vm_compute. reflexivity. Qed.

End LinkHarvester.

(** ** The save loop of the harvest *)

Module Reharvest.
Import Scraper.

Lemma findOne_create_same (a : Article) (c : Collection) :
  findOne (url a) (create a c) <> None.
Proof.
  unfold findOne, create. induction c as [|b c IH]; cbn [app find].
  - assert (E : str_eqb (url a) (url a) = true) by now apply JsFacts.str_eqb_eq.
    rewrite E. discriminate.
  - destruct (str_eqb (url b) (url a)); [discriminate | exact IH].
Qed.

Lemma findOne_create_keeps (u : jsstring) (a : Article) (c : Collection) :
  findOne u c <> None -> findOne u (create a c) <> None.
Proof.
  unfold findOne, create. induction c as [|b c IH]; cbn [app find].
  - congruence.
  - destruct (str_eqb (url b) u); [discriminate | exact IH].
Qed.

Section WithDom.
Context `{Cheerio}.
Variable w : World.

Lemma save_loop_settled (articles : list Article) :
  forall i c, settled w i articles c -> save_loop w i articles c = c.
Proof.
  induction articles as [|a rest IH]; intros i c Hs; [reflexivity|].
  destruct Hs as [Hhere Hrest]. cbn [save_loop]. cbv zeta.
  destruct (store_fault w i) eqn:Ef; [now apply IH|].
  destruct Hhere as [Hf|Hfound]; [discriminate|].
  destruct (findOne (url a) c); [now apply IH | congruence].
Qed.

Lemma save_loop_keeps (u : jsstring) (articles : list Article) :
  forall i c,
    findOne u c <> None -> findOne u (save_loop w i articles c) <> None.
Proof.
  induction articles as [|a rest IH]; intros i c Hu; [exact Hu|].
  cbn [save_loop]. cbv zeta. apply IH.
  destruct (store_fault w i); [exact Hu|].
  destruct (findOne (url a) c); [exact Hu|].
  now apply findOne_create_keeps.
Qed.

Lemma settled_grows (articles : list Article) :
  forall i c c',
    (forall u, findOne u c <> None -> findOne u c' <> None) ->
    settled w i articles c -> settled w i articles c'.
Proof.
  induction articles as [|a rest IH]; intros i c c' Hgrow Hs; [exact I|].
  destruct Hs as [[Hf|Hfound] Hrest]; (split; [|now apply (IH _ c)]).
  - now left.
  - right. now apply Hgrow.
Qed.

Lemma save_loop_settles (articles : list Article) :
  forall i c, settled w i articles (save_loop w i articles c).
Proof.
  induction articles as [|a rest IH]; intros i c; [exact I|].
  cbn [save_loop settled]. cbv zeta. split; [|apply IH].
  destruct (store_fault w i) eqn:Ef; [now left|]. right.
  apply save_loop_keeps.
  destruct (findOne (url a) c) eqn:Efound; [congruence|].
  apply findOne_create_same.
Qed.

Lemma all_found_settled (articles : list Article) (c : Collection) :
  (forall a, In a articles -> findOne (url a) c <> None) ->
  forall i, settled w i articles c.
Proof.
  induction articles as [|a rest IH]; intros Hall i; [exact I|].
  split; [right; apply Hall; now left|].
  apply IH. intros b Hb. apply Hall. now right.
Qed.

(** C9.  When every article a harvest scrapes already exists in the
    collection by its [url], the harvest leaves the collection as it found
    it: no record is created. *)
Theorem reharvest_creates_nothing (c : Collection) :
  (forall a, In a (harvested w) -> findOne (url a) c <> None) ->
  scrapeArticles w c = c.
Proof.
  intros Hall. unfold scrapeArticles. cbv zeta.
  destruct (length (harvested_links w) =? 0); [reflexivity|].
  apply save_loop_settled. now apply all_found_settled.
Qed.

(** X23.  The same harvest run again, in the same world, creates nothing
    more: the collection after two runs is the collection after one. *)
Lemma reharvest_idempotent (c : Collection) :
  scrapeArticles w (scrapeArticles w c) = scrapeArticles w c.
Proof.
  unfold scrapeArticles. cbv zeta.
  destruct (length (harvested_links w) =? 0); [reflexivity|].
  apply save_loop_settled, save_loop_settles.
Qed.

End WithDom.

(** The article of the only link is already stored: nothing is created. *)
Lemma reharvest_creates_nothing_witness :
  (forall a, In a (harvested one_link_world) ->
             findOne (url a) [stored_article] <> None)
  /\ scrapeArticles one_link_world [stored_article] = [stored_article].
Proof.
  assert (Hall : forall a, In a (harvested one_link_world) ->
                           findOne (url a) [stored_article] <> None).
  { intros a Ha. vm_compute in Ha. destruct Ha as [<-|[]].
    vm_compute. discriminate. }
  split; [exact Hall|].
  exact (@reharvest_creates_nothing TablePage one_link_world [stored_article] Hall).
Defined.

(** On an empty collection the same harvest creates the article. *)
Example first_harvest_creates :
  length (scrapeArticles one_link_world []) = 1.
Proof. vm_compute. reflexivity. Qed.

End Reharvest.

(** ** The orchestrator *)

Module Orchestrator.
Import Pipeline.

Section WithDom.
Context `{Cheerio}.
Variable w : World.

(** Step 2 appends, to the references it starts with, those of [kept_from],
    and makes the calls of [scrape_trace]. *)
Lemma scrape_loop_run (urls : list jsstring) :
  forall n refs,
    scrape_loop w n urls refs = (refs ++ kept_from w n urls, scrape_trace urls).
Proof.
  induction urls as [|url rest IH]; intros n refs.
  - cbn. now rewrite app_nil_r.
  - cbn [scrape_loop kept_from scrape_trace flat_map].
    fold (scrape_trace rest). cbv zeta.
    unfold bind, emit. rewrite IH. cbn [app].
    destruct (scrapeContentFromURL (http_get w n url)) as [|c s] eqn:E.
    + reflexivity.
    + cbn [truthy andb].
      destruct (500 <? length (c :: s)); [now rewrite <- app_assoc|].
      reflexivity.
Qed.

Lemma kept_from_length (urls : list jsstring) :
  forall n, length (kept_from w n urls) <= length urls.
Proof.
  induction urls as [|url rest IH]; intros n; [simpl; lia|].
  cbn [kept_from]. cbv zeta. rewrite length_app. specialize (IH (S n)).
  destruct (500 <? _); simpl; lia.
Qed.

(** A kept reference is the scrape of one of the URLs, longer than 500
    characters. *)
Lemma kept_from_scraped (urls : list jsstring) :
  forall n ref,
    In ref (kept_from w n urls) ->
    exists k,
      nth_error urls k = Some (url ref)
      /\ ref_content ref = scrapeContentFromURL (http_get w (n + k) (url ref))
      /\ 500 < length (ref_content ref).
Proof.
  induction urls as [|u rest IH]; intros n ref Hin; [contradiction|].
  cbn [kept_from] in Hin. cbv zeta in Hin.
  apply in_app_or in Hin as [Hin|Hin].
  - destruct (Nat.ltb_spec 500 (length (scrapeContentFromURL (http_get w n u))))
      as [Hlong|Hshort]; [|contradiction].
    destruct Hin as [<-|[]]. exists 0. cbn. rewrite Nat.add_0_r.
    repeat split. exact Hlong.
  - destruct (IH _ _ Hin) as (k & Hk & Hc & Hlong).
    exists (S k). rewrite Nat.add_succ_r. repeat split; assumption.
Qed.

(** Conversely, a URL whose scrape is longer than 500 characters is kept. *)
Lemma scraped_kept (urls : list jsstring) :
  forall n k u,
    nth_error urls k = Some u ->
    500 < length (scrapeContentFromURL (http_get w (n + k) u)) ->
    In {| url := u;
          ref_content := scrapeContentFromURL (http_get w (n + k) u) |}
       (kept_from w n urls).
Proof.
  induction urls as [|u' rest IH]; intros n k u Hk Hlong;
    [destruct k; discriminate|].
  cbn [kept_from]. cbv zeta. apply in_or_app. destruct k as [|k].
  - injection Hk as ->. rewrite Nat.add_0_r in *. left.
    apply Nat.ltb_lt in Hlong. rewrite Hlong. now left.
  - right. rewrite Nat.add_succ_r in *. now apply (IH (S n)).
Qed.

Lemma scrape_trace_calls (urls : list jsstring) (e : Event) :
  In e (scrape_trace urls) ->
  (exists u, e = Scraped u) \/ e = Waited 1000.
Proof.
  unfold scrape_trace. rewrite in_flat_map.
  intros (u & _ & [<-|[<-|[]]]); [left; now exists u | now right].
Qed.

(** The record a run saves, when it saves one, carries the URLs of the
    references step 2 kept. *)
Lemma saved_record (article : Original) (data : ArticleData) :
  In (Saved data) (snd (processOneArticle w article)) ->
  references data =
  map url (kept_from w 0 (searchGoogleForArticle
                            (customsearch w (title article)))).
Proof.
  unfold processOneArticle.
  set (results := searchGoogleForArticle (customsearch w (title article))).
  unfold bind at 1. unfold emit at 1.
  destruct (length results =? 0).
  - cbn. intros [E|[]]. discriminate.
  - unfold bind at 1. rewrite scrape_loop_run. cbn [app].
    set (refs := kept_from w 0 results).
    destruct (length refs =? 0).
    + cbn. rewrite app_nil_r. intros [E|Hin]; [discriminate|].
      apply scrape_trace_calls in Hin as [[u E]|E]; discriminate.
    + unfold enhanceArticleWithAI, saveEnhancedArticle, bind, emit, ret.
      destruct (completion w (title article) (content article) refs)
        as [enhanced|]; [destruct (truthy enhanced)|].
      * destruct (match post w _ with Some b => b | None => false end);
          cbn [snd app]; intros [E|Hin]; try discriminate;
          apply in_app_or in Hin as [Hin|Hin];
          try (apply scrape_trace_calls in Hin as [[u E]|E]; discriminate);
          destruct Hin as [E|[E|[]]]; try discriminate;
          injection E as <-; reflexivity.
      * cbn [snd app]. intros [E|Hin]; [discriminate|].
        apply in_app_or in Hin as [Hin|[E|[]]]; [|discriminate].
        apply scrape_trace_calls in Hin as [[u E]|E]; discriminate.
      * cbn [snd app]. intros [E|Hin]; [discriminate|].
        apply in_app_or in Hin as [Hin|[E|[]]]; [|discriminate].
        apply scrape_trace_calls in Hin as [[u E]|E]; discriminate.
Qed.

(** C4.  Every record a run passes to persistence has at most two
    references, and each of them is a URL the search returned whose scraped
    content was longer than 500 characters. *)
Theorem saved_references_bounded_and_scraped
        (article : Original) (data : ArticleData) :
  In (Saved data) (snd (processOneArticle w article)) ->
  length (references data) <= 2
  /\ Forall (fun u =>
               exists k,
                 nth_error (searchGoogleForArticle
                              (customsearch w (title article))) k = Some u
                 /\ 500 < length (scrapeContentFromURL (http_get w k u)))
            (references data).
Proof.
  intros Hsaved. rewrite (saved_record _ _ Hsaved). split.
  - rewrite length_map.
    etransitivity; [apply kept_from_length|].
    apply ReferenceFinder.search_at_most_two.
  - apply Forall_forall. intros u Hu.
    apply in_map_iff in Hu as (ref & <- & Href).
    apply kept_from_scraped in Href as (k & Hk & Hc & Hlong).
    exists k. split; [exact Hk|]. cbn in Hc. now rewrite <- Hc.
Qed.

(** C5 (as amended).  When the reference finder returns no URL, the run
    returns [{ success: false, reason: 'No Google results' }], and the
    search is the only call it has made: no scrape, no call of the enhancer
    and no save. *)
Theorem no_search_results_skips (article : Original) :
  searchGoogleForArticle (customsearch w (title article)) = [] ->
  processOneArticle w article =
  ({| success := false; reason := Some (lit "No Google results") |},
   [Searched (title article)]).
Proof.
  intros Hnone. unfold processOneArticle. rewrite Hnone. reflexivity.
Qed.

End WithDom.

(** The run with two references of 600 and 700 characters saves a record
    with both URLs. *)
Lemma saved_references_bounded_and_scraped_witness :
  In (Saved enhanced_record)
     (snd (processOneArticle answering_world an_original))
  /\ length (references enhanced_record) <= 2
  /\ Forall (fun u =>
               exists k,
                 nth_error (searchGoogleForArticle
                              (customsearch answering_world
                                            (title an_original))) k = Some u
                 /\ 500 < length (scrapeContentFromURL
                                    (http_get answering_world k u)))
            (references enhanced_record).
Proof.
  assert (Hsaved : In (Saved enhanced_record)
                      (snd (processOneArticle answering_world an_original))).
  { vm_compute. do 6 right. left. reflexivity. }
  split; [exact Hsaved|].
  exact (@saved_references_bounded_and_scraped TablePage answering_world
           an_original enhanced_record Hsaved).
Defined.

(** A search without items: the run stops after the search. *)
Lemma no_search_results_skips_witness :
  searchGoogleForArticle (customsearch silent_world (title an_original)) = []
  /\ processOneArticle silent_world an_original =
     ({| success := false; reason := Some (lit "No Google results") |},
      [Searched (title an_original)]).
Proof.
  assert (Hnone : searchGoogleForArticle
                    (customsearch silent_world (title an_original)) = [])
    by reflexivity.
  split; [exact Hnone|].
  exact (@no_search_results_skips TablePage silent_world an_original Hnone).
Defined.

(** C5, the claim as stated fails on the reason: the reference finder
    returns no URL and the reason of the run is not the string
    [no search results]. *)
Lemma skip_reason_counterexample :
  searchGoogleForArticle (customsearch silent_world (title an_original)) = []
  /\ reason (fst (processOneArticle silent_world an_original))
     <> Some (lit "no search results").
Proof. split; [reflexivity | vm_compute; discriminate]. Qed.

End Orchestrator.

(** ** The reference scrape at its interface *)

Module ReferenceScrape.
Import Pipeline.

Lemma kept_from_long `{Cheerio} (w : World) (urls : list jsstring) :
  forall n,
    Forall (fun ref => 500 < length (ref_content ref)) (kept_from w n urls).
Proof.
  induction urls as [|url rest IH]; intros n; [constructor|].
  cbn [kept_from]. cbv zeta. apply Forall_app. split; [|apply IH].
  destruct (Nat.ltb_spec 500 (length (scrapeContentFromURL (http_get w n url))));
    repeat constructor. assumption.
Qed.

(** C10.  The reference scrape is a total function of the outcome of the
    page load: it returns a string in every case, the empty string when the
    load or the parse fails.  It enforces no minimum itself: a page with a
    short body is returned as the 17 characters it has.  The minimum of 500
    characters is the filter of the orchestrator: the references step 2
    collects are those of [kept_from], each longer than 500 characters. *)
Theorem reference_scrape_total_filter_outside :
  (forall (C : Cheerio), scrapeContentFromURL (H := C) None = [])
  /\ scrapeContentFromURL (H := TablePage) (Some short_body_page)
     = lit "just a few words"
  /\ (forall (C : Cheerio) (w : World) (n : nat) (urls : list jsstring),
         fst (scrape_loop w n urls []) = kept_from w n urls
         /\ Forall (fun ref => 500 < length (ref_content ref))
                   (kept_from w n urls)).
Proof.
  split; [reflexivity|]. split; [vm_compute; reflexivity|].
  intros C w n urls. split; [|apply kept_from_long].
  now rewrite Orchestrator.scrape_loop_run.
Qed.

(** The scenario of two references of 600 and 700 characters: both are
    kept, the record is saved and the run succeeds. *)
Example two_references_run :
  processOneArticle answering_world an_original =
  ({| success := true; reason := None |},
   [ Searched (lit "X");
     Scraped (lit "https://a.example/1"); Waited 1000;
     Scraped (lit "https://b.example/2"); Waited 1000;
     Enhanced (lit "X") (lit "...")
              [ {| url := lit "https://a.example/1";
                   ref_content := repeat 97%N 600 |};
                {| url := lit "https://b.example/2";
                   ref_content := repeat 97%N 700 |} ];
     Saved enhanced_record ]).
Proof. vm_compute. reflexivity. Qed.

End ReferenceScrape.

(** ** White-space normalisation *)

Module Whitespace.

Lemma collapse_plain (s : jsstring) :
  forall b, plain_spaces (collapse_from b s) = true.
Proof.
  induction s as [|c s IH]; intros b; [reflexivity|].
  cbn [collapse_from]. destruct (is_space c) eqn:Ec.
  - destruct b; [apply IH|]. cbn. apply IH.
  - cbn [plain_spaces forallb]. rewrite Ec. cbn. apply IH.
Qed.

Lemma collapse_no_runs (s : jsstring) :
  forall b, no_runs b (collapse_from b s) = true.
Proof.
  induction s as [|c s IH]; intros b; [reflexivity|].
  cbn [collapse_from]. destruct (is_space c) eqn:Ec.
  - destruct b; [apply IH|].
    cbn [no_runs andb negb]. change (is_space 32%N) with true. apply IH.
  - cbn [no_runs]. rewrite Ec, andb_false_r. cbn. apply IH.
Qed.

Lemma no_runs_weaken (s : jsstring) (b : bool) :
  no_runs b s = true -> no_runs false s = true.
Proof.
  destruct s as [|c s]; [reflexivity|]. cbn [no_runs].
  rewrite !andb_true_iff. intros [_ Hrest]. split; [reflexivity | exact Hrest].
Qed.

Lemma no_runs_prefix (s t : jsstring) :
  forall b, no_runs b (s ++ t) = true -> no_runs b s = true.
Proof.
  induction s as [|c s IH]; intros b; [reflexivity|].
  cbn [app no_runs]. rewrite !andb_true_iff.
  intros [Hc Hrest]. split; [exact Hc | now apply IH].
Qed.

Lemma no_runs_suffix (p s : jsstring) :
  forall b, no_runs b (p ++ s) = true -> no_runs false s = true.
Proof.
  induction p as [|c p IH]; intros b; cbn [app].
  - apply no_runs_weaken.
  - cbn [no_runs]. rewrite andb_true_iff. intros [_ Hrest]. now apply IH in Hrest.
Qed.

Lemma trimStart_suffix (s : jsstring) : exists p, s = p ++ trimStart s.
Proof.
  induction s as [|c s [p IH]]; [now exists []|].
  cbn [trimStart]. destruct (is_space c).
  - exists (c :: p). cbn. now rewrite <- IH.
  - now exists [].
Qed.

Lemma trimEnd_prefix (s : jsstring) : exists t, s = trimEnd s ++ t.
Proof.
  unfold trimEnd. destruct (trimStart_suffix (rev s)) as [p Hp].
  exists (rev p). rewrite <- rev_app_distr, <- Hp. now rewrite rev_involutive.
Qed.

Lemma trimStart_clean (s : jsstring) : starts_clean (trimStart s) = true.
Proof.
  induction s as [|c s IH]; [reflexivity|].
  cbn [trimStart]. destruct (is_space c) eqn:Ec; [exact IH|].
  cbn. now rewrite Ec.
Qed.

Lemma trimStart_snoc (s : jsstring) (c : codeunit) :
  trimStart (s ++ [c]) =
  match trimStart s with
  | [] => if is_space c then [] else [c]
  | t => t ++ [c]
  end.
Proof.
  induction s as [|d s IH]; [reflexivity|].
  cbn [app trimStart]. destruct (is_space d); [exact IH | reflexivity].
Qed.

(** [trimEnd] keeps the first character of a string unless all of it is
    white space. *)
Lemma trimEnd_cons (c : codeunit) (s : jsstring) :
  trimEnd (c :: s) =
  match trimEnd s with
  | [] => if is_space c then [] else [c]
  | t => c :: t
  end.
Proof.
  unfold trimEnd. cbn [rev]. rewrite trimStart_snoc.
  destruct (trimStart (rev s)) as [|d t] eqn:E.
  - cbn. now destruct (is_space c).
  - rewrite rev_app_distr. cbn [rev app].
    destruct (rev t ++ [d]) eqn:E'; [now destruct (rev t)|reflexivity].
Qed.

Lemma trimEnd_keeps_start (s : jsstring) :
  starts_clean s = true -> starts_clean (trimEnd s) = true.
Proof.
  destruct s as [|c s]; [reflexivity|]. cbn [starts_clean].
  intros Hc. rewrite trimEnd_cons.
  apply negb_true_iff in Hc. rewrite Hc.
  destruct (trimEnd s); cbn; now rewrite Hc.
Qed.

Lemma trim_starts_clean (s : jsstring) : starts_clean (trim s) = true.
Proof. unfold trim. apply trimEnd_keeps_start, trimStart_clean. Qed.

Lemma trim_ends_clean (s : jsstring) : ends_clean (trim s) = true.
Proof.
  unfold ends_clean, trim, trimEnd. rewrite rev_involutive.
  apply trimStart_clean.
Qed.

Lemma trimStart_fixed (s : jsstring) :
  starts_clean s = true -> trimStart s = s.
Proof.
  destruct s as [|c s]; [reflexivity|]. cbn.
  intros Hc. apply negb_true_iff in Hc. now rewrite Hc.
Qed.

Lemma trim_fixed (s : jsstring) :
  starts_clean s = true -> ends_clean s = true -> trim s = s.
Proof.
  intros Hs He. unfold trim. rewrite (trimStart_fixed _ Hs).
  unfold trimEnd. rewrite (trimStart_fixed _ He). apply rev_involutive.
Qed.

Lemma collapse_fixed (s : jsstring) :
  forall b,
    plain_spaces s = true -> no_runs b s = true -> collapse_from b s = s.
Proof.
  induction s as [|c s IH]; intros b Hp Hr; [reflexivity|].
  cbn [plain_spaces forallb] in Hp. cbn [no_runs] in Hr.
  apply andb_true_iff in Hp as [Hc Hp]. apply andb_true_iff in Hr as [Hb Hr].
  cbn [collapse_from]. destruct (is_space c) eqn:Ec.
  - cbn in Hc. apply N.eqb_eq in Hc. subst c.
    rewrite andb_true_r in Hb. apply negb_true_iff in Hb. subst b.
    f_equal. now apply IH.
  - f_equal. now apply IH.
Qed.

Lemma plain_prefix (s t : jsstring) :
  plain_spaces (s ++ t) = true -> plain_spaces s = true.
Proof.
  unfold plain_spaces. rewrite forallb_app, andb_true_iff. now intros [Hs _].
Qed.

Lemma plain_suffix (s t : jsstring) :
  plain_spaces (s ++ t) = true -> plain_spaces t = true.
Proof.
  unfold plain_spaces. rewrite forallb_app, andb_true_iff. now intros [_ Ht].
Qed.

Lemma trim_plain (s : jsstring) :
  plain_spaces s = true -> plain_spaces (trim s) = true.
Proof.
  intros Hp. unfold trim.
  destruct (trimStart_suffix s) as [p Hs].
  destruct (trimEnd_prefix (trimStart s)) as [t Ht].
  rewrite Hs in Hp. apply plain_suffix in Hp.
  rewrite Ht in Hp. now apply plain_prefix in Hp.
Qed.

Lemma trim_no_runs (s : jsstring) (b : bool) :
  no_runs b s = true -> no_runs false (trim s) = true.
Proof.
  intros Hr. unfold trim.
  destruct (trimStart_suffix s) as [p Hs].
  destruct (trimEnd_prefix (trimStart s)) as [t Ht].
  rewrite Hs in Hr. apply no_runs_suffix in Hr.
  rewrite Ht in Hr. now apply no_runs_prefix in Hr.
Qed.

(** What normalisation gives: single plain spaces between the words, none
    at either end. *)
Lemma normalize_tidy (s : jsstring) :
  plain_spaces (normalize s) = true
  /\ no_runs false (normalize s) = true
  /\ starts_clean (normalize s) = true
  /\ ends_clean (normalize s) = true.
Proof.
  unfold normalize, collapse_spaces. repeat split.
  - apply trim_plain, collapse_plain.
  - apply (trim_no_runs _ false), collapse_no_runs.
  - apply trim_starts_clean.
  - apply trim_ends_clean.
Qed.

(** X1.  The content of every record the harvesting scrape returns is
    normalised: its only white space is the plain space, no two spaces are
    adjacent, and it neither starts nor ends with one. *)
Theorem harvested_content_normalised :
  forall (C : Cheerio) (page : option doc) (u : jsstring) (a : Scraper.Article),
    Scraper.scrapeArticleContent page u = Some a ->
    plain_spaces (Scraper.content a) = true
    /\ no_runs false (Scraper.content a) = true
    /\ starts_clean (Scraper.content a) = true
    /\ ends_clean (Scraper.content a) = true.
Proof.
  intros C [d0|] u a Ha; [|discriminate].
  apply Extractor.scraped_article_fields in Ha as (_ & -> & _).
  apply normalize_tidy.
Qed.

(** X2.  Normalising a normalised string changes nothing. *)
Theorem normalize_idempotent (s : jsstring) :
  normalize (normalize s) = normalize s.
Proof.
  destruct (normalize_tidy s) as (Hp & Hr & Hs & He).
  unfold normalize at 1. unfold collapse_spaces.
  rewrite (collapse_fixed _ false Hp Hr). now apply trim_fixed.
Qed.

(** X3.  What the reference scrape returns has single plain spaces for
    white space and does not start with one, cut or not. *)
Theorem reference_content_normalised :
  forall (C : Cheerio) (page : option doc),
    plain_spaces (Pipeline.scrapeContentFromURL page) = true
    /\ no_runs false (Pipeline.scrapeContentFromURL page) = true
    /\ starts_clean (Pipeline.scrapeContentFromURL page) = true.
Proof.
  intros C [d0|]; [|repeat split].
  unfold Pipeline.scrapeContentFromURL. cbv zeta.
  set (m := normalize (Pipeline.raw_content (remove Pipeline.noise d0))).
  destruct (normalize_tidy (Pipeline.raw_content (remove Pipeline.noise d0)))
    as (Hp & Hr & Hs & _). fold m in Hp, Hr, Hs.
  destruct (4000 <? length m); [|repeat split; assumption].
  unfold substring0.
  rewrite <- (firstn_skipn 4000 m) in Hp, Hr.
  apply plain_prefix in Hp. apply no_runs_prefix in Hr.
  repeat split; try assumption.
  destruct m as [|c m']; [reflexivity | exact Hs].
Qed.

End Whitespace.

(** ** The page URL and the page pattern *)

Module Pagination.
Import Scraper.

Definition digit_step (acc d : N) : N := (10 * acc + (d - 48))%N.

Lemma parse_digits_acc (d : Decimal.uint) :
  forall acc : positive,
    fold_left digit_step (lit (NilEmpty.string_of_uint d)) (N.pos acc)
    = N.pos (Pos.of_uint_acc d acc).
Proof.
  induction d; intros acc; cbn [NilEmpty.string_of_uint Pos.of_uint_acc];
    [reflexivity|..];
    (change (lit (String ?c ?r)) with (N_of_ascii c :: lit r);
     cbn [fold_left]; rewrite <- IHd; f_equal; try reflexivity;
     unfold digit_step;
     match goal with
     | |- context [N_of_ascii ?c] =>
         let v := eval vm_compute in (N_of_ascii c) in
         change (N_of_ascii c) with v
     end; lia).
Qed.

Lemma parse_digits (d : Decimal.uint) :
  fold_left digit_step (lit (NilEmpty.string_of_uint d)) 0%N = Pos.of_uint d.
Proof.
  induction d; cbn [NilEmpty.string_of_uint Pos.of_uint]; [reflexivity|..];
    change (lit (String ?c ?r)) with (N_of_ascii c :: lit r);
    cbn [fold_left]; [exact IHd|..]; apply parse_digits_acc.
Qed.

(** [parseInt] reads back the number a template literal printed. *)
Lemma parseInt_of_N (n : N) : parseInt (of_N n) = n.
Proof.
  unfold parseInt, of_N. fold digit_step.
  rewrite <- (DecimalN.Unsigned.of_to n) at 2. unfold N.of_uint.
  destruct (N.to_uint n) eqn:E; try apply parse_digits. reflexivity.
Qed.

Lemma printed_digits (d : Decimal.uint) :
  forallb is_digit (lit (NilEmpty.string_of_uint d)) = true.
Proof.
  induction d; cbn [NilEmpty.string_of_uint]; [reflexivity|..];
    change (lit (String ?c ?r)) with (N_of_ascii c :: lit r);
    cbn [forallb]; rewrite IHd; reflexivity.
Qed.

Lemma of_N_digits (n : N) : forallb is_digit (of_N n) = true.
Proof.
  unfold of_N. destruct (N.to_uint n); try apply printed_digits. reflexivity.
Qed.

Lemma of_N_not_empty (n : N) : of_N n <> [].
Proof.
  intros E. pose proof (parseInt_of_N n) as Hn. rewrite E in Hn.
  cbn in Hn. subst n. discriminate.
Qed.

Lemma take_digits_all (ds rest : jsstring) (c : codeunit) :
  forallb is_digit ds = true -> is_digit c = false ->
  take_digits (ds ++ c :: rest) = ds.
Proof.
  intros Hds Hc. induction ds as [|d ds IH]; cbn [app take_digits].
  - now rewrite Hc.
  - cbn [forallb] in Hds. apply andb_true_iff in Hds as [Hd Hds].
    rewrite Hd. f_equal. now apply IH.
Qed.

Lemma match_page_listing (tail : jsstring) :
  take_digits tail <> [] ->
  match_page (baseUrl ++ lit "page/" ++ tail) = Some (take_digits tail).
Proof.
  intros Hne.
  assert (E : baseUrl ++ lit "page/" ++ tail =
              lit "https://beyondchats.com" ++ lit "/blogs/page/" ++ tail)
    by reflexivity.
  rewrite E. clear E.
  set (pat := lit "/blogs/page/").
  assert (Hskip : forall x,
             match_page (lit "https://beyondchats.com" ++ x) = match_page x).
  { intros x. subst pat. cbn. reflexivity. }
  rewrite Hskip. subst pat.
  destruct (take_digits tail) as [|d ds] eqn:Ed; [congruence|].
  cbn. rewrite Ed. reflexivity.
Qed.

(** X4.  The listing URL [scrapeArticles] builds for page [n] is matched by
    the pattern of the pagination probe, and the digits the pattern
    captures parse back to [n]. *)
Theorem page_url_round_trip (n : N) :
  (1 < n)%N -> (n < 2 ^ 53)%N ->
  match_page (lastPageUrl n) = Some (of_N n)
  /\ parseInt (of_N n) = n.
Proof.
  intros Hn _. split; [|apply parseInt_of_N].
  unfold lastPageUrl. apply N.ltb_lt in Hn. rewrite Hn.
  assert (Hd : take_digits (of_N n ++ lit "/") = of_N n).
  { apply take_digits_all; [apply of_N_digits | reflexivity]. }
  rewrite match_page_listing; rewrite Hd; [reflexivity | apply of_N_not_empty].
Qed.

Lemma page_url_round_trip_witness :
  match_page (lastPageUrl 12) = Some (of_N 12) /\ parseInt (of_N 12) = 12%N.
Proof.
  apply page_url_round_trip; [reflexivity | reflexivity].
Defined.

End Pagination.

(** ** Title, author and image of a harvested article *)

Module Fields.
Import Scraper.

Section WithDom.
Context `{Cheerio}.

(** The title and author loops stop at the first match whose trimmed text
    is not empty; without one the variable holds the text of the last
    match. *)
Lemma text_loop_first_filled (d : doc) (selectors : list string) :
  forall value,
    text_loop d selectors value =
    match find truthy (matched_texts d selectors) with
    | Some t => t
    | None => last (matched_texts d selectors) value
    end.
Proof.
  induction selectors as [|selector rest IH]; intros value; [reflexivity|].
  cbn [text_loop matched_texts flat_map]. fold (matched_texts d rest).
  destruct (first (select d selector)) as [|e l] eqn:E.
  - cbn [length app]. change (0 <? 0) with false. cbv iota. apply IH.
  - change (0 <? length (e :: l)) with true. cbv iota zeta. cbn [app find].
    destruct (truthy (trim (text (e :: l)))); [reflexivity|].
    rewrite IH, JsFacts.last_cons. reflexivity.
Qed.

Lemma all_blank_last (texts : list jsstring) (value : jsstring) :
  find truthy texts = None ->
  last texts value = match texts with [] => value | _ :: _ => [] end.
Proof.
  revert value. induction texts as [|t texts IH]; intros value Hnone;
    [reflexivity|].
  cbn [find] in Hnone. destruct t as [|c t]; [|discriminate].
  rewrite JsFacts.last_cons, (IH _ Hnone). now destruct texts.
Qed.


Lemma scraped_article_rest (d0 : doc) (u : jsstring) (a : Article) :
  scrapeArticleContent (Some d0) u = Some a ->
  author a = text_loop (remove noise d0) authorSelectors (lit "Unknown")
  /\ imageUrl a = image_loop (remove noise d0) imgSelectors None
  /\ type a = lit "original".
Proof.
  unfold scrapeArticleContent.
  destruct (_ || _ || _); [discriminate|].
  intros E. injection E as <-. repeat split.
Qed.

(** X5.  The title of a returned record is the trimmed text of the first
    title selector, in cascade order, whose trimmed text is not empty. *)
Theorem title_is_first_filled (d0 : doc) (u : jsstring) (a : Article) :
  scrapeArticleContent (Some d0) u = Some a ->
  find truthy (matched_texts (remove noise d0) titleSelectors) = Some (title a).
Proof.
  intros Ha.
  destruct (Extractor.returned_record_sufficient _ _ Ha) as [Hne _].
  apply Extractor.scraped_article_fields in Ha as (Ht & _ & _).
  unfold extract_title in Ht. rewrite text_loop_first_filled in Ht.
  destruct (find truthy (matched_texts (remove noise d0) titleSelectors))
    as [t|] eqn:E; [now rewrite Ht|].
  rewrite (all_blank_last _ _ E) in Ht.
  destruct (matched_texts (remove noise d0) titleSelectors); congruence.
Qed.

(** X6.  The author of a returned record is the trimmed text of the first
    author selector whose trimmed text is not empty; it is the empty string
    when author elements match but all are blank, and ['Unknown'] only when
    no author selector matches. *)
Theorem author_default_only_unmatched (d0 : doc) (u : jsstring) (a : Article) :
  scrapeArticleContent (Some d0) u = Some a ->
  author a =
  match find truthy (matched_texts (remove noise d0) authorSelectors) with
  | Some t => t
  | None =>
      match matched_texts (remove noise d0) authorSelectors with
      | [] => lit "Unknown"
      | _ :: _ => []
      end
  end.
Proof.
  intros Ha. apply scraped_article_rest in Ha as (-> & _ & _).
  rewrite text_loop_first_filled.
  destruct (find truthy (matched_texts (remove noise d0) authorSelectors))
    eqn:E; [reflexivity|].
  now apply all_blank_last.
Qed.


End WithDom.

Lemma untidy_page_scraped :
  scrapeArticleContent (H := TablePage) (Some untidy_page) some_url
  = Some untidy_record.
Proof. vm_compute. reflexivity. Qed.

Lemma title_is_first_filled_witness :
  find truthy (matched_texts (H := TablePage)
                 (remove (Cheerio := TablePage) noise untidy_page)
                 titleSelectors)
  = Some (title untidy_record).
Proof.
  exact (@title_is_first_filled TablePage untidy_page some_url untidy_record
           untidy_page_scraped).
Defined.

Lemma author_default_only_unmatched_witness :
  author untidy_record =
  match find truthy (matched_texts (H := TablePage)
                       (remove (Cheerio := TablePage) noise untidy_page)
                       authorSelectors) with
  | Some t => t
  | None =>
      match matched_texts (H := TablePage)
              (remove (Cheerio := TablePage) noise untidy_page)
              authorSelectors with
      | [] => lit "Unknown"
      | _ :: _ => []
      end
  end.
Proof.
  exact (@author_default_only_unmatched TablePage untidy_page some_url
           untidy_record untidy_page_scraped).
Defined.


Lemma harvested_content_normalised_witness :
  plain_spaces (content untidy_record) = true
  /\ no_runs false (content untidy_record) = true
  /\ starts_clean (content untidy_record) = true
  /\ ends_clean (content untidy_record) = true.
Proof.
  exact (@Whitespace.harvested_content_normalised TablePage (Some untidy_page)
           some_url untidy_record untidy_page_scraped).
Defined.

End Fields.

(** ** What a harvest does to the collection *)

Module StoreFacts.
Import Scraper.

Lemma findOne_none (u : jsstring) (c : Collection) :
  findOne u c = None <-> ~ In u (map url c).
Proof.
  unfold findOne. induction c as [|b c IH]; cbn [find map In].
  - split; [intros _ [] | reflexivity].
  - destruct (str_eqb (url b) u) eqn:E.
    + apply JsFacts.str_eqb_eq in E. split; [discriminate|].
      intros Hn. exfalso. apply Hn. now left.
    + rewrite IH. split.
      * intros Hn [Hb|Hin]; [|now apply Hn].
        apply JsFacts.str_eqb_eq in Hb. congruence.
      * intros Hn Hin. apply Hn. now right.
Qed.

Section WithDom.
Context `{Cheerio}.
Variable w : World.

(** The save loop only appends: what it adds are candidates that were not
    found by [url], at most one per candidate. *)
Lemma save_loop_appends (articles : list Article) :
  forall i c,
    exists new,
      save_loop w i articles c = c ++ new
      /\ length new <= length articles
      /\ forall a, In a new -> In a articles /\ findOne (url a) c = None.
Proof.
  induction articles as [|a rest IH]; intros i c.
  - exists []. cbn. rewrite app_nil_r.
    split; [reflexivity|]. split; [lia|]. intros a [].
  - cbn [save_loop]. cbv zeta.
    assert (Hkeep : forall c', c' = c ->
              exists new,
                save_loop w (S i) rest c' = c ++ new
                /\ length new <= length (a :: rest)
                /\ forall b, In b new ->
                             In b (a :: rest) /\ findOne (url b) c = None).
    { intros c' ->. destruct (IH (S i) c) as (new & E & Hlen & Hnew).
      exists new. split; [exact E|]. split; [simpl; lia|].
      intros b Hb. destruct (Hnew b Hb). split; [now right | assumption]. }
    destruct (store_fault w i); [now apply Hkeep|].
    destruct (findOne (url a) c) eqn:Ea; [now apply Hkeep|].
    destruct (IH (S i) (create a c)) as (new & E & Hlen & Hnew).
    exists (a :: new). unfold create in E. rewrite <- app_assoc in E.
    split; [exact E|]. split; [simpl; lia|].
    intros b [<-|Hb]; [split; [now left | exact Ea]|].
    destruct (Hnew b Hb) as [Hin Hnone]. split; [now right|].
    destruct (findOne (url b) c) eqn:Eb; [|reflexivity].
    exfalso. apply (@Reharvest.findOne_create_keeps (url b) a c); congruence.
Qed.

(** The save loop keeps the [url]s of the collection distinct. *)
Lemma save_loop_distinct (articles : list Article) :
  forall i c,
    NoDup (map url c) -> NoDup (map url (save_loop w i articles c)).
Proof.
  induction articles as [|a rest IH]; intros i c Hnd; [exact Hnd|].
  cbn [save_loop]. cbv zeta. apply IH.
  destruct (store_fault w i); [exact Hnd|].
  destruct (findOne (url a) c) eqn:Ea; [exact Hnd|].
  unfold create. rewrite map_app. cbn [map].
  apply NoDup_app; [exact Hnd | repeat constructor; intros [] |].
  intros x Hx [<-|[]]. apply findOne_none in Ea. contradiction.
Qed.

(** Step 3 appends, to the records it starts with, records scraped from the
    links, at most one per link. *)
Lemma scrape_loop_from_links (articleLinks : list jsstring) :
  forall n articles,
    exists scraped,
      scrape_loop w n articleLinks articles = articles ++ scraped
      /\ length scraped <= length articleLinks
      /\ forall a, In a scraped ->
           exists k link,
             nth_error articleLinks k = Some link
             /\ scrapeArticleContent (render w (n + k) link) link = Some a.
Proof.
  induction articleLinks as [|link rest IH]; intros n articles.
  - exists []. cbn. rewrite app_nil_r.
    split; [reflexivity|]. split; [lia|]. intros a [].
  - cbn [scrape_loop].
    destruct (scrapeArticleContent (render w n link) link) as [a|] eqn:Ea.
    + destruct (IH (S n) (articles ++ [a])) as (scraped & E & Hlen & Hs).
      exists (a :: scraped). rewrite <- app_assoc in E.
      split; [exact E|]. split; [simpl; lia|].
      intros b [<-|Hb].
      * exists 0, link. rewrite Nat.add_0_r. now split.
      * destruct (Hs b Hb) as (k & l & Hk & Hl).
        exists (S k), l. rewrite Nat.add_succ_r. now split.
    + destruct (IH (S n) articles) as (scraped & E & Hlen & Hs).
      exists scraped. split; [exact E|]. split; [simpl; lia|].
      intros b Hb. destruct (Hs b Hb) as (k & l & Hk & Hl).
      exists (S k), l. rewrite Nat.add_succ_r. now split.
Qed.

Lemma harvested_from_links (a : Article) :
  In a (harvested w) ->
  In (url a) (harvested_links w)
  /\ title a <> [] /\ 100 <= length (content a) /\ type a = lit "original".
Proof.
  unfold harvested.
  destruct (scrape_loop_from_links (harvested_links w) 2 [])
    as (scraped & E & _ & Hs).
  rewrite E. cbn [app]. intros Ha.
  destruct (Hs a Ha) as (k & link & Hk & Hl).
  destruct (Extractor.returned_record_sufficient _ _ Hl) as [Ht Hc].
  destruct (render w (2 + k) link) as [d0|]; [|discriminate].
  pose proof (Extractor.scraped_article_fields _ _ Hl) as (_ & _ & Hu).
  pose proof (Fields.scraped_article_rest _ _ Hl) as (_ & _ & Hty).
  repeat split; try assumption.
  rewrite Hu. now apply nth_error_In in Hk.
Qed.

Lemma harvested_at_most_five : length (harvested w) <= 5.
Proof.
  unfold harvested.
  destruct (scrape_loop_from_links (harvested_links w) 2 [])
    as (scraped & E & Hlen & _).
  rewrite E. cbn [app]. etransitivity; [exact Hlen|].
  unfold harvested_links, scrapeArticleLinks.
  destruct (render w 1 _); [|simpl; lia].
  rewrite length_firstn. lia.
Qed.

(** X8.  A harvest only appends to the collection, at most five records.
    Each record it creates was scraped from one of the harvested links and
    carries that link as its [url], a [url] no record of the collection had;
    it has a title, at least 100 characters of content and the type
    ['original']. *)
Theorem harvest_appends_complete_records (c : Collection) :
  exists new,
    scrapeArticles w c = c ++ new
    /\ length new <= 5
    /\ forall a, In a new ->
         findOne (url a) c = None
         /\ In (url a) (harvested_links w)
         /\ title a <> []
         /\ 100 <= length (content a)
         /\ type a = lit "original".
Proof.
  unfold scrapeArticles. cbv zeta.
  destruct (length (harvested_links w) =? 0).
  - exists []. rewrite app_nil_r.
    split; [reflexivity|]. split; [simpl; lia|]. intros a [].
  - fold (harvested w).
    destruct (save_loop_appends (harvested w) 0 c) as (new & E & Hlen & Hnew).
    exists new. split; [exact E|]. split.
    + etransitivity; [exact Hlen | apply harvested_at_most_five].
    + intros a Ha. destruct (Hnew a Ha) as [Hin Hnone].
      destruct (harvested_from_links _ Hin) as (H1 & H2 & H3 & H4).
      repeat split; assumption.
Qed.

(** X9.  A harvest keeps [url] a key: when no two records of the collection
    share a [url], no two records share one afterwards. *)
Theorem harvest_keeps_urls_distinct (c : Collection) :
  NoDup (map url c) -> NoDup (map url (scrapeArticles w c)).
Proof.
  intros Hnd. unfold scrapeArticles. cbv zeta.
  destruct (length (harvested_links w) =? 0); [exact Hnd|].
  now apply save_loop_distinct.
Qed.

Lemma settled_found (articles : list Article) :
  forall i c,
    (forall j, store_fault w j = false) ->
    settled w i articles c ->
    forall a, In a articles -> findOne (url a) c <> None.
Proof.
  induction articles as [|b rest IH]; intros i c Hok Hs a Ha; [contradiction|].
  destruct Hs as [[Hf|Hfound] Hrest].
  - rewrite Hok in Hf. discriminate.
  - destruct Ha as [<-|Ha]; [exact Hfound | now apply (IH (S i))].
Qed.

(** X10.  When the store does not fail, every article the harvest scraped
    is found by its [url] afterwards. *)
Theorem harvested_articles_found (c : Collection) (a : Article) :
  (forall j, store_fault w j = false) ->
  In a (harvested w) ->
  findOne (url a) (scrapeArticles w c) <> None.
Proof.
  intros Hok Ha. unfold scrapeArticles. cbv zeta.
  destruct (length (harvested_links w) =? 0) eqn:E.
  - exfalso. unfold harvested in Ha.
    destruct (harvested_links w); [contradiction | discriminate].
  - fold (harvested w).
    apply (settled_found (harvested w) 0); try assumption.
    apply Reharvest.save_loop_settles.
Qed.

End WithDom.

Lemma one_link_harvested :
  harvested one_link_world =
  [ {| title := lit "A title"; content := repeat 97%N 150; url := some_url;
       author := lit "Unknown"; imageUrl := None; type := lit "original" |} ].
Proof. vm_compute. reflexivity. Qed.

Lemma harvest_keeps_urls_distinct_witness :
  NoDup (map url [stored_article])
  /\ NoDup (map url (scrapeArticles one_link_world [stored_article])).
Proof.
  assert (Hnd : NoDup (map url [stored_article]))
    by (repeat constructor; intros []).
  split; [exact Hnd|].
  exact (@harvest_keeps_urls_distinct TablePage one_link_world
           [stored_article] Hnd).
Defined.

Lemma harvested_articles_found_witness :
  findOne some_url (scrapeArticles one_link_world []) <> None.
Proof.
  refine (@harvested_articles_found TablePage one_link_world []
            {| title := lit "A title"; content := repeat 97%N 150;
               url := some_url; author := lit "Unknown"; imageUrl := None;
               type := lit "original" |} (fun _ => eq_refl) _).
  rewrite one_link_harvested. now left.
Defined.

End StoreFacts.

(** ** The runs of the orchestrator *)

Module RunFacts.
Import Pipeline.

Section WithDom.
Context `{Cheerio}.
Variable w : World.

(** The five ways a run ends, with the calls it makes. *)
Lemma run_described (article : Original) :
  processOneArticle w article =
  let results := searchGoogleForArticle (customsearch w (title article)) in
  let refs := kept_from w 0 results in
  let searched := Searched (title article) in
  let call := Enhanced (title article) (content article) refs in
  if length results =? 0
  then (skipped "No Google results", [searched])
  else if length refs =? 0
  then (skipped "Scraping failed", searched :: scrape_trace results)
  else match completion w (title article) (content article) refs with
       | Some enhanced =>
           if truthy enhanced then
             let data :=
               {| data_title := title article ++ lit " (Enhanced)";
                  data_content := enhanced ++ referencesSection refs;
                  type := lit "updated";
                  originalArticleId := _id article;
                  references := map url refs |} in
             (if match post w data with Some b => b | None => false end
              then {| success := true; reason := None |}
              else skipped "Save failed",
              searched :: scrape_trace results ++ [call; Saved data])
           else (skipped "AI failed",
                 searched :: scrape_trace results ++ [call])
       | None => (skipped "AI failed",
                  searched :: scrape_trace results ++ [call])
       end.
Proof.
  cbv zeta. unfold processOneArticle.
  set (results := searchGoogleForArticle (customsearch w (title article))).
  unfold bind at 1. unfold emit at 1.
  destruct (length results =? 0); [reflexivity|].
  unfold bind at 1. rewrite Orchestrator.scrape_loop_run. cbn [app].
  set (refs := kept_from w 0 results).
  destruct (length refs =? 0); [cbn; now rewrite app_nil_r|].
  unfold enhanceArticleWithAI, saveEnhancedArticle, bind, emit, ret.
  destruct (completion w (title article) (content article) refs)
    as [enhanced|]; [destruct (truthy enhanced)|]; try reflexivity.
  now destruct (match post w _ with Some b => b | None => false end).
Qed.

Lemma kept_from_none (urls : list jsstring) :
  forall n,
    (forall k u, nth_error urls k = Some u ->
       length (scrapeContentFromURL (http_get w (n + k) u)) <= 500) ->
    kept_from w n urls = [].
Proof.
  induction urls as [|url rest IH]; intros n Hshort; [reflexivity|].
  cbn [kept_from]. cbv zeta.
  pose proof (Hshort 0 url eq_refl) as H0. rewrite Nat.add_0_r in H0.
  apply Nat.ltb_ge in H0. rewrite H0. cbn [app]. apply IH.
  intros k u Hk. specialize (Hshort (S k) u Hk).
  now rewrite Nat.add_succ_r in Hshort.
Qed.

(** A call of the enhancer or a save is not among the search and the
    scrapes of a run. *)
Lemma after_scrapes (e : Event) (t : jsstring) (urls : list jsstring)
      (tail : list Event) :
  In e (Searched t :: scrape_trace urls ++ tail) ->
  match e with Enhanced _ _ _ | Saved _ => True | _ => False end ->
  In e tail.
Proof.
  intros [<-|Hin] He; [contradiction|].
  apply in_app_or in Hin as [Hin|Hin]; [|exact Hin].
  apply Orchestrator.scrape_trace_calls in Hin as [[u ->]| ->]; contradiction.
Qed.

(** X11.  The calls of a run are, in order: one search, then for each of at
    most two URLs a scrape followed by a pause of one second, then nothing
    more, or one call of the enhancer, or one call of the enhancer followed
    by one save. *)
Theorem run_protocol (article : Original) :
  exists urls tail,
    snd (processOneArticle w article) =
    Searched (title article) :: scrape_trace urls ++ tail
    /\ length urls <= 2
    /\ run_tail (title article) (content article) tail.
Proof.
  rewrite run_described. cbv zeta.
  set (results := searchGoogleForArticle (customsearch w (title article))).
  assert (Hlen : length results <= 2)
    by apply ReferenceFinder.search_at_most_two.
  destruct (length results =? 0).
  - exists [], []. repeat split; [simpl; lia | constructor].
  - destruct (length (kept_from w 0 results) =? 0).
    + exists results, []. cbn [snd]. rewrite app_nil_r.
      repeat split; [exact Hlen | constructor].
    + destruct (completion w (title article) (content article)
                           (kept_from w 0 results)) as [enhanced|];
        [destruct (truthy enhanced)|].
      * eexists results, _. cbn [snd].
        repeat split; [exact Hlen | apply tail_saved].
      * eexists results, _. cbn [snd].
        repeat split; [exact Hlen | apply tail_enhanced].
      * eexists results, _. cbn [snd].
        repeat split; [exact Hlen | apply tail_enhanced].
Qed.

(** X12.  A run reports success exactly when it has posted a record and the
    answer to the post carried data. *)
Theorem success_iff_saved (article : Original) :
  success (fst (processOneArticle w article)) = true <->
  exists data,
    In (Saved data) (snd (processOneArticle w article))
    /\ post w data = Some true.
Proof.
  rewrite run_described. cbv zeta.
  set (results := searchGoogleForArticle (customsearch w (title article))).
  set (refs := kept_from w 0 results).
  assert (Hscr : forall data tail,
             In (Saved data) (Searched (title article)
                                :: scrape_trace results ++ tail) ->
             In (Saved data) tail).
  { intros data tail [E|Hin]; [discriminate|].
    apply in_app_or in Hin as [Hin|Hin]; [|exact Hin].
    apply Orchestrator.scrape_trace_calls in Hin as [[u E]|E]; discriminate. }
  destruct (length results =? 0).
  - cbn. split; [discriminate|]. intros (data & [E|[]] & _). discriminate.
  - destruct (length refs =? 0).
    + cbn [fst snd success skipped]. split; [discriminate|].
      intros (data & Hin & _). rewrite <- (app_nil_r (scrape_trace results)) in Hin.
      now apply Hscr in Hin.
    + destruct (completion w (title article) (content article) refs)
        as [enhanced|]; [destruct (truthy enhanced)|].
      * cbn [fst snd]. split.
        -- intros Hs. eexists. split.
           ++ right. apply in_or_app. right. right. left. reflexivity.
           ++ destruct (post w _) as [[|]|]; [reflexivity | discriminate..].
        -- intros (data & Hin & Hpost). apply Hscr in Hin.
           destruct Hin as [E|[E|[]]]; [discriminate|].
           injection E as <-. now rewrite Hpost.
      * cbn [fst snd success skipped]. split; [discriminate|].
        intros (data & Hin & _). apply Hscr in Hin.
        destruct Hin as [E|[]]. discriminate.
      * cbn [fst snd success skipped]. split; [discriminate|].
        intros (data & Hin & _). apply Hscr in Hin.
        destruct Hin as [E|[]]. discriminate.
Qed.

(** X13.  When the search returns URLs and no scraped page gives more than
    500 characters, the run ends with the reason ['Scraping failed'] after
    the scrapes: the enhancer is not called and nothing is saved. *)
Theorem short_references_skip (article : Original) :
  searchGoogleForArticle (customsearch w (title article)) <> [] ->
  (forall k u,
      nth_error (searchGoogleForArticle (customsearch w (title article))) k
      = Some u ->
      length (scrapeContentFromURL (http_get w k u)) <= 500) ->
  processOneArticle w article =
  (skipped "Scraping failed",
   Searched (title article)
     :: scrape_trace (searchGoogleForArticle (customsearch w (title article)))).
Proof.
  intros Hsome Hshort. rewrite run_described. cbv zeta.
  rewrite (kept_from_none _ 0 Hshort).
  destruct (searchGoogleForArticle (customsearch w (title article)));
    [congruence | reflexivity].
Qed.

(** X14.  When the generation service fails or gives an empty text, the run
    does not succeed and saves nothing; if the enhancer was called at all,
    the reason is ['AI failed']. *)
Theorem failed_generation_saves_nothing (article : Original) :
  (forall refs,
      completion w (title article) (content article) refs = None
      \/ completion w (title article) (content article) refs = Some []) ->
  success (fst (processOneArticle w article)) = false
  /\ (forall data, ~ In (Saved data) (snd (processOneArticle w article)))
  /\ (forall t c refs,
         In (Enhanced t c refs) (snd (processOneArticle w article)) ->
         reason (fst (processOneArticle w article)) = Some (lit "AI failed")).
Proof.
  intros Hfail. rewrite run_described. cbv zeta.
  set (results := searchGoogleForArticle (customsearch w (title article))).
  set (kept := kept_from w 0 results).
  destruct (length results =? 0).
  - split; [reflexivity|]. split.
    + intros data [E|[]]. discriminate.
    + intros t c refs [E|[]]. discriminate.
  - destruct (length kept =? 0).
    + split; [reflexivity|]. cbn [snd fst].
      rewrite <- (app_nil_r (scrape_trace results)). split.
      * intros data Hin. now apply after_scrapes in Hin.
      * intros t c refs Hin. now apply after_scrapes in Hin.
    + destruct (Hfail kept) as [-> | ->]; cbn [truthy fst snd];
        (split; [reflexivity|]; split;
         [intros data Hin; apply after_scrapes in Hin; [|exact I];
          destruct Hin as [E|[]]; discriminate
         |intros; reflexivity]).
Qed.

End WithDom.

End RunFacts.

Module RunWitnesses.
Import Pipeline.

Lemma short_references_skip_witness :
  processOneArticle short_pages_world an_original =
  (skipped "Scraping failed",
   Searched (title an_original)
     :: scrape_trace (searchGoogleForArticle
                        (customsearch short_pages_world (title an_original)))).
Proof.
  apply (@RunFacts.short_references_skip TablePage short_pages_world an_original).
  - vm_compute. discriminate.
  - intros k u _. apply Nat.leb_le. vm_compute. reflexivity.
Defined.

Lemma failed_generation_saves_nothing_witness :
  success (fst (processOneArticle mute_world an_original)) = false
  /\ (forall data, ~ In (Saved data) (snd (processOneArticle mute_world an_original)))
  /\ (forall t c refs,
         In (Enhanced t c refs) (snd (processOneArticle mute_world an_original)) ->
         reason (fst (processOneArticle mute_world an_original))
         = Some (lit "AI failed")).
Proof.
  apply (@RunFacts.failed_generation_saves_nothing TablePage mute_world an_original).
  intros refs. left. reflexivity.
Defined.

End RunWitnesses.

(** ** The record a run saves *)

Module SavedRecord.
Import Pipeline.

Lemma startsWith_self (p t : jsstring) : startsWith (p ++ t) p = true.
Proof.
  induction p as [|c p IH]; [reflexivity|].
  cbn. now rewrite N.eqb_refl.
Qed.

Lemma includes_middle (a p b : jsstring) : includes (a ++ p ++ b) p = true.
Proof.
  apply JsFacts.includes_app_r.
  destruct (p ++ b) eqn:E; cbn [includes]; rewrite <- E, startsWith_self;
    reflexivity.
Qed.

Lemma separated_holds (sep : jsstring) (arr : list jsstring) (x : jsstring) :
  In x arr -> exists a b, flat_map (fun y => sep ++ y) arr = a ++ x ++ b.
Proof.
  induction arr as [|z rest IH]; [contradiction|].
  cbn [flat_map]. intros [<-|Hin].
  - exists sep, (flat_map (fun y => sep ++ y) rest). now rewrite <- app_assoc.
  - destruct (IH Hin) as (a & b & ->).
    exists ((sep ++ z) ++ a), b. now rewrite <- !app_assoc.
Qed.

Lemma join_holds (sep : jsstring) (arr : list jsstring) (x : jsstring) :
  In x arr -> exists a b, join sep arr = a ++ x ++ b.
Proof.
  destruct arr as [|y rest]; [contradiction|]. cbn [join].
  intros [<-|Hin]; [now exists [], (flat_map (fun z => sep ++ z) rest)|].
  destruct (separated_holds sep _ _ Hin) as (a & b & ->).
  exists (y ++ a), b. now rewrite <- app_assoc.
Qed.

Lemma citation_lines_nth (refs : list Reference) :
  forall i k ref,
    nth_error refs k = Some ref ->
    nth_error (citation_lines i refs) k
    = Some (citation (i + N.of_nat k + 1) (url ref)).
Proof.
  induction refs as [|r rest IH]; intros i k ref Hk;
    [destruct k; discriminate|].
  destruct k as [|k]; cbn [nth_error citation_lines] in *.
  - injection Hk as ->. now rewrite N.add_0_r.
  - rewrite (IH (i + 1)%N k ref Hk). do 2 f_equal. lia.
Qed.

(** Every reference has its numbered line in the citation section. *)
Lemma section_cites (refs : list Reference) (k : nat) (ref : Reference) :
  nth_error refs k = Some ref ->
  includes (referencesSection refs) (citation (N.of_nat k + 1) (url ref))
  = true.
Proof.
  intros Hk. pose proof (citation_lines_nth refs 0 k Hk) as Hline.
  apply nth_error_In in Hline.
  destruct (join_holds nl _ _ Hline) as (a & b & E).
  change (0 + N.of_nat k + 1)%N with (N.of_nat k + 1)%N in E.
  unfold referencesSection. rewrite E.
  do 11 apply JsFacts.includes_app_r.
  rewrite <- !app_assoc. apply includes_middle.
Qed.

Section WithDom.
Context `{Cheerio}.
Variable w : World.

Lemma saved_is_described (article : Original) (data : ArticleData) :
  In (Saved data) (snd (processOneArticle w article)) ->
  exists enhanced,
    completion w (title article) (content article)
               (kept_from w 0 (searchGoogleForArticle
                                 (customsearch w (title article))))
    = Some enhanced
    /\ enhanced <> []
    /\ data =
       {| data_title := title article ++ lit " (Enhanced)";
          data_content :=
            enhanced ++
            referencesSection
              (kept_from w 0 (searchGoogleForArticle
                                (customsearch w (title article))));
          type := lit "updated";
          originalArticleId := _id article;
          references :=
            map url (kept_from w 0 (searchGoogleForArticle
                                      (customsearch w (title article)))) |}.
Proof.
  rewrite RunFacts.run_described. cbv zeta.
  set (results := searchGoogleForArticle (customsearch w (title article))).
  set (refs := kept_from w 0 results).
  assert (Hscr : forall tail,
             In (Saved data) (Searched (title article)
                                :: scrape_trace results ++ tail) ->
             In (Saved data) tail).
  { intros tail [E|Hin]; [discriminate|].
    apply in_app_or in Hin as [Hin|Hin]; [|exact Hin].
    apply Orchestrator.scrape_trace_calls in Hin as [[u E]|E]; discriminate. }
  destruct (length results =? 0); [intros [E|[]]; discriminate|].
  destruct (length refs =? 0).
  - cbn [snd]. rewrite <- (app_nil_r (scrape_trace results)).
    intros Hin. now apply Hscr in Hin.
  - destruct (completion w (title article) (content article) refs)
      as [enhanced|]; [destruct enhanced as [|c e]|]; cbn [truthy snd];
      intros Hin; apply Hscr in Hin.
    + destruct Hin as [E|[]]. discriminate.
    + destruct Hin as [E|[E|[]]]; [discriminate|].
      injection E as <-. exists (c :: e).
      split; [reflexivity|]. split; [discriminate | reflexivity].
    + destruct Hin as [E|[]]. discriminate.
Qed.

(** X15.  A record a run saves is the enhanced version of its article: the
    title is the original title followed by [ (Enhanced)], the type is
    ['updated'], [originalArticleId] is the [_id] of the article, and the
    content starts with the text of the generation service, which is not
    empty. *)
Theorem saved_record_links_original (article : Original) (data : ArticleData) :
  In (Saved data) (snd (processOneArticle w article)) ->
  data_title data = title article ++ lit " (Enhanced)"
  /\ type data = lit "updated"
  /\ originalArticleId data = _id article
  /\ exists enhanced,
      completion w (title article) (content article)
                 (kept_from w 0 (searchGoogleForArticle
                                   (customsearch w (title article))))
      = Some enhanced
      /\ enhanced <> []
      /\ startsWith (data_content data) enhanced = true.
Proof.
  intros Hin. destruct (saved_is_described _ _ Hin) as (e & Hc & Hne & ->).
  cbn. repeat split. exists e. repeat split; try assumption.
  apply startsWith_self.
Qed.

(** X16.  The content of a saved record cites every reference of the
    record: the [k]-th URL of [references] (from 0) appears in it in the
    line [k+1. [Source k+1](URL)]. *)
Theorem saved_content_cites_references
        (article : Original) (data : ArticleData) (k : nat) (u : jsstring) :
  In (Saved data) (snd (processOneArticle w article)) ->
  nth_error (references data) k = Some u ->
  includes (data_content data) (citation (N.of_nat k + 1) u) = true.
Proof.
  intros Hin Hk. destruct (saved_is_described _ _ Hin) as (e & _ & _ & ->).
  cbn [references data_content] in *.
  rewrite nth_error_map in Hk.
  destruct (nth_error _ k) as [ref|] eqn:Eref; [|discriminate].
  injection Hk as <-. apply JsFacts.includes_app_r. now apply section_cites.
Qed.

End WithDom.

Lemma answering_run_saves :
  In (Saved enhanced_record)
     (snd (processOneArticle answering_world an_original)).
Proof. vm_compute. do 6 right. left. reflexivity. Qed.

Lemma saved_record_links_original_witness :
  data_title enhanced_record = title an_original ++ lit " (Enhanced)"
  /\ type enhanced_record = lit "updated"
  /\ originalArticleId enhanced_record = _id an_original
  /\ exists enhanced,
      completion answering_world (title an_original) (content an_original)
                 (kept_from answering_world 0
                    (searchGoogleForArticle
                       (customsearch answering_world (title an_original))))
      = Some enhanced
      /\ enhanced <> []
      /\ startsWith (data_content enhanced_record) enhanced = true.
Proof.
  exact (@saved_record_links_original TablePage answering_world an_original
           enhanced_record answering_run_saves).
Defined.

Lemma saved_content_cites_references_witness :
  includes (data_content enhanced_record)
           (citation 2 (lit "https://b.example/2")) = true.
Proof.
  exact (@saved_content_cites_references TablePage answering_world an_original
           enhanced_record 1 (lit "https://b.example/2")
           answering_run_saves eq_refl).
Defined.

End SavedRecord.

(** ** The prompt of the enhancer *)

Module PromptFacts.
Import Pipeline Prompt.

Lemma template_length :
  length prompt_part0 + length prompt_part1 + length prompt_part2
  + length prompt_part3 + length prompt_part4 = 903.
Proof. vm_compute. reflexivity. Qed.

(** X17.  Whatever the sizes of the article and of its references, the
    prompt is at most the 903 characters of the template, the title, 2000
    characters of content and 1500 characters of each of two references. *)
Theorem prompt_bounded (t c : jsstring) (refs : list Reference) :
  length (aiPrompt t c refs) <= 903 + length t + 2000 + 1500 + 1500.
Proof.
  unfold aiPrompt, substring0. cbv zeta. rewrite !length_app, !length_firstn.
  pose proof template_length as Htpl.
  pose proof (Nat.le_min_l 2000 (length c)).
  pose proof (Nat.le_min_l 1500 (length (reference_text refs 0))).
  pose proof (Nat.le_min_l 1500 (length (reference_text refs 1))).
  lia.
Qed.

Lemma cut_truthy (s : jsstring) : truthy (firstn 1500 s) = truthy s.
Proof. now destruct s. Qed.

Lemma cut_twice (n : nat) (s : jsstring) : firstn n (firstn n s) = firstn n s.
Proof. rewrite firstn_firstn. now rewrite Nat.min_id. Qed.

Lemma reference_text_cut (refs : list Reference) (i : nat) :
  i < 2 ->
  firstn 1500 (reference_text (map cut_reference (firstn 2 refs)) i)
  = firstn 1500 (reference_text refs i).
Proof.
  intros Hi. unfold reference_text.
  assert (E : nth_error (map cut_reference (firstn 2 refs)) i
              = option_map cut_reference (nth_error refs i)).
  { rewrite nth_error_map.
    destruct refs as [|r0 [|r1 rest]]; destruct i as [|[|i]];
      try reflexivity; lia. }
  rewrite E. destruct (nth_error refs i) as [ref|]; [|reflexivity].
  cbn [option_map cut_reference ref_content]. rewrite cut_truthy.
  destruct (truthy (ref_content ref)); [apply cut_twice | reflexivity].
Qed.

(** X18.  The prompt reads only the first 2000 characters of the content,
    only the first two references and only the first 1500 characters of
    each: cutting the arguments to these changes nothing. *)
Theorem prompt_reads_prefixes (t c : jsstring) (refs : list Reference) :
  aiPrompt t (firstn 2000 c) (map cut_reference (firstn 2 refs))
  = aiPrompt t c refs.
Proof.
  unfold aiPrompt, substring0. cbv zeta.
  rewrite cut_twice, !reference_text_cut by lia. reflexivity.
Qed.

End PromptFacts.

(** ** The batch *)

Module BatchFacts.
Import Pipeline Batch.

Definition not_search (e : Event) : Prop :=
  match e with Searched _ => False | _ => True end.

Lemma scrape_trace_not_search (urls : list jsstring) :
  Forall not_search (scrape_trace urls).
Proof.
  induction urls as [|u rest IH]; [constructor|].
  cbn. repeat constructor. exact IH.
Qed.

Lemma no_search_titles (i : nat) (calls : list Event) :
  Forall not_search calls -> searched_titles (map (InArticle i) calls) = [].
Proof.
  induction 1 as [|e calls He _ IH]; [reflexivity|].
  cbn [map searched_titles flat_map]. fold (searched_titles (map (InArticle i) calls)).
  rewrite IH. now destruct e.
Qed.

Lemma no_article_pause (i : nat) (calls : list Event) :
  article_pauses (map (InArticle i) calls) = [].
Proof. induction calls as [|e calls IH]; [reflexivity | exact IH]. Qed.

Section WithDom.
Context `{Cheerio}.

(** A run searches once, first, for the title of its article. *)
Lemma run_searches_once (w : World) (article : Original) :
  exists rest,
    snd (processOneArticle w article) = Searched (title article) :: rest
    /\ Forall not_search rest.
Proof.
  rewrite RunFacts.run_described. cbv zeta.
  destruct (length (searchGoogleForArticle _) =? 0);
    [eexists; split; [reflexivity | constructor]|].
  destruct (length (kept_from _ _ _) =? 0);
    [eexists; split; [reflexivity | apply scrape_trace_not_search]|].
  destruct (completion _ _ _ _) as [e|]; [destruct (truthy e)|];
    (eexists; split; [reflexivity|]; apply Forall_app;
     split; [apply scrape_trace_not_search | repeat constructor]).
Qed.

Variable bw : BatchWorld.

Lemma process_from_counts (articles : list Original) :
  forall n i results,
    successful (fst (process_from bw n i articles results))
    = successful results + length (filter id (run_successes bw i articles))
    /\ failed (fst (process_from bw n i articles results))
       = failed results + length (filter negb (run_successes bw i articles))
    /\ total (fst (process_from bw n i articles results)) = total results.
Proof.
  induction articles as [|article rest IH]; intros n i results.
  - cbn. repeat split; lia.
  - cbn [process_from run_successes].
    destruct (processOneArticle (run_world bw i) article) as [result calls].
    cbv zeta. cbn [fst].
    match goal with
    | |- context [process_from bw n (S i) rest ?r] =>
        specialize (IH n (S i) r);
        destruct (process_from bw n (S i) rest r) as [final later]
    end.
    cbn [fst] in *. destruct IH as (Hs & Hf & Ht).
    rewrite Hs, Hf, Ht.
    destruct (success result); cbn; repeat split; lia.
Qed.

Lemma process_from_titles (articles : list Original) :
  forall n i results,
    searched_titles (snd (process_from bw n i articles results))
    = map title articles.
Proof.
  induction articles as [|article rest IH]; intros n i results; [reflexivity|].
  cbn [process_from].
  destruct (run_searches_once (run_world bw i) article) as (tr & Etr & Hns).
  destruct (processOneArticle (run_world bw i) article) as [result calls].
  cbn [snd] in Etr. subst calls. cbv zeta.
  match goal with
  | |- context [process_from bw n (S i) rest ?r] =>
      specialize (IH n (S i) r);
      destruct (process_from bw n (S i) rest r) as [final later]
  end.
  cbn [snd] in *. unfold searched_titles in *.
  rewrite !flat_map_app, IH. cbn [map flat_map].
  fold (searched_titles (map (InArticle i) tr)).
  rewrite (no_search_titles i Hns). cbn [app].
  now destruct (i <? n - 1).
Qed.

Lemma process_from_pauses (articles : list Original) :
  forall n i results,
    n = i + length articles ->
    length (article_pauses (snd (process_from bw n i articles results)))
    = length articles - 1.
Proof.
  induction articles as [|article rest IH]; intros n i results Hn;
    [reflexivity|].
  cbn [process_from].
  destruct (processOneArticle (run_world bw i) article) as [result calls].
  cbv zeta.
  match goal with
  | |- context [process_from bw n (S i) rest ?r] =>
      specialize (IH n (S i) r);
      destruct (process_from bw n (S i) rest r) as [final later]
  end.
  cbn [snd length] in *. unfold article_pauses in *.
  rewrite !filter_app, !length_app.
  fold (article_pauses (map (InArticle i) calls)).
  rewrite no_article_pause, IH by lia. cbn [length].
  destruct (Nat.ltb_spec i (n - 1)) as [Hlt|Hge]; cbn; lia.
Qed.

Lemma run_successes_length (articles : list Original) :
  forall i, length (run_successes bw i articles) = length articles.
Proof.
  induction articles as [|a rest IH]; intros i; [reflexivity|].
  cbn. now rewrite IH.
Qed.

Lemma outcomes_split (l : list bool) :
  length (filter id l) + length (filter negb l) = length l.
Proof. induction l as [|[|] l IH]; cbn; lia. Qed.

(** X19.  When the backend answers and lists originals, the batch runs to
    its end whatever the runs give: [total] is the number of originals
    listed, [successful] the number of runs that succeeded, [failed] the
    number of the others, and the two add up to [total]. *)
Theorem batch_counts_every_article :
  backend_up bw = true ->
  fetchArticlesFromAPI bw <> [] ->
  exists results,
    fst (main bw) = Completed results
    /\ total results = length (fetchArticlesFromAPI bw)
    /\ successful results
       = length (filter id (run_successes bw 0 (fetchArticlesFromAPI bw)))
    /\ failed results
       = length (filter negb (run_successes bw 0 (fetchArticlesFromAPI bw)))
    /\ successful results + failed results = total results.
Proof.
  intros Hup Hsome. unfold main. rewrite Hup. cbv zeta.
  destruct (fetchArticlesFromAPI bw) as [|a rest] eqn:E; [congruence|].
  change (length (a :: rest) =? 0) with false. cbv iota.
  pose proof (process_from_counts (a :: rest) (length (a :: rest)) 0
                {| successful := 0; failed := 0;
                   total := length (a :: rest) |})
    as (Hs & Hf & Ht).
  destruct (process_from _ _ _ _ _) as [final calls].
  cbn [fst successful failed total plus] in Hs, Hf, Ht.
  exists final. split; [reflexivity|]. repeat split; try assumption.
  rewrite Hs, Hf, Ht, outcomes_split. apply run_successes_length.
Qed.

(** X20.  When the backend answers, the batch processes every original it
    lists, once and in the order of the list, whatever the outcome of the
    earlier ones: the titles it searches for are the titles of the list. *)
Theorem batch_processes_all_in_order :
  backend_up bw = true ->
  searched_titles (snd (main bw)) = map title (fetchArticlesFromAPI bw).
Proof.
  intros Hup. unfold main. rewrite Hup. cbv zeta.
  destruct (fetchArticlesFromAPI bw) as [|a rest] eqn:E; [reflexivity|].
  change (length (a :: rest) =? 0) with false. cbv iota.
  pose proof (process_from_titles (a :: rest) (length (a :: rest)) 0
                {| successful := 0; failed := 0;
                   total := length (a :: rest) |}) as Ht.
  destruct (process_from _ _ _ _ _) as [final calls].
  cbn [snd] in *. exact Ht.
Qed.

Lemma process_from_paced (articles : list Original) :
  forall n i results,
    n = i + length articles ->
    snd (process_from bw n i articles results) = paced_calls bw i articles.
Proof.
  induction articles as [|article rest IH]; intros n i results Hn;
    [reflexivity|].
  cbn [process_from paced_calls].
  destruct (processOneArticle (run_world bw i) article) as [result calls].
  cbv zeta.
  match goal with
  | |- context [process_from bw n (S i) rest ?r] =>
      specialize (IH n (S i) r);
      destruct (process_from bw n (S i) rest r) as [final later]
  end.
  cbn [snd length] in *. f_equal.
  destruct rest as [|next rest'].
  - cbn in IH. rewrite IH by (simpl in Hn; lia).
    destruct (Nat.ltb_spec i (n - 1)) as [Hlt|Hge]; [simpl in Hn; lia|].
    reflexivity.
  - rewrite IH by (simpl in *; lia).
    destruct (Nat.ltb_spec i (n - 1)) as [Hlt|Hge];
      [reflexivity | simpl in Hn; lia].
Qed.

(** X21.  When the backend answers and lists originals, the calls of the
    batch are the check of the backend, the listing, a pause of two
    seconds, and then the calls of the runs of the articles in order, with
    exactly one pause of three seconds between the calls of an article and
    those of the next and none after the last; so there is one such pause
    fewer than originals. *)
Theorem batch_pauses_between_articles :
  backend_up bw = true ->
  fetchArticlesFromAPI bw <> [] ->
  snd (main bw)
  = [BackendChecked; Listed; Paused 2000]
      ++ paced_calls bw 0 (fetchArticlesFromAPI bw)
  /\ length (article_pauses (snd (main bw)))
     = length (fetchArticlesFromAPI bw) - 1.
Proof.
  intros Hup Hsome. unfold main. rewrite Hup. cbv zeta.
  destruct (fetchArticlesFromAPI bw) as [|a rest] eqn:E; [congruence|].
  change (length (a :: rest) =? 0) with false. cbv iota.
  pose proof (fun Hn => @process_from_pauses (a :: rest)
                (length (a :: rest)) 0
                {| successful := 0; failed := 0;
                   total := length (a :: rest) |} Hn) as Hp.
  specialize (Hp eq_refl).
  pose proof (fun Hn => @process_from_paced (a :: rest)
                (length (a :: rest)) 0
                {| successful := 0; failed := 0;
                   total := length (a :: rest) |} Hn) as Hq.
  specialize (Hq eq_refl).
  destruct (process_from _ _ _ _ _) as [final calls].
  cbn [snd] in *. split; [now rewrite Hq | exact Hp].
Qed.

End WithDom.

Lemma batch_counts_every_article_witness :
  exists results,
    fst (main mixed_batch) = Completed results
    /\ total results = length (fetchArticlesFromAPI mixed_batch)
    /\ successful results
       = length (filter id (run_successes mixed_batch 0
                              (fetchArticlesFromAPI mixed_batch)))
    /\ failed results
       = length (filter negb (run_successes mixed_batch 0
                                (fetchArticlesFromAPI mixed_batch)))
    /\ successful results + failed results = total results.
Proof.
  apply (@batch_counts_every_article TablePage mixed_batch);
    [reflexivity | discriminate].
Defined.

Lemma batch_processes_all_in_order_witness :
  searched_titles (snd (main mixed_batch))
  = map title (fetchArticlesFromAPI mixed_batch).
Proof.
  apply (@batch_processes_all_in_order TablePage mixed_batch). reflexivity.
Defined.

Lemma batch_pauses_between_articles_witness :
  snd (main mixed_batch)
  = [BackendChecked; Listed; Paused 2000]
      ++ paced_calls mixed_batch 0 (fetchArticlesFromAPI mixed_batch)
  /\ length (article_pauses (snd (main mixed_batch)))
     = length (fetchArticlesFromAPI mixed_batch) - 1.
Proof.
  apply (@batch_pauses_between_articles TablePage mixed_batch);
    [reflexivity | discriminate].
Defined.

(** In the mixed batch the second run makes one call and the third ends
    with the call of the enhancer: the two pauses stand right after the save
    of the first run and right after the search of the second, and the
    batch ends with the call of the enhancer, not with a pause. *)
Example mixed_batch_pause_positions :
  nth_error (snd (main mixed_batch)) 9
  = Some (InArticle 0 (Saved enhanced_record))
  /\ nth_error (snd (main mixed_batch)) 10 = Some (Paused 3000)
  /\ nth_error (snd (main mixed_batch)) 11 = Some (InArticle 1 (Searched (lit "Y")))
  /\ nth_error (snd (main mixed_batch)) 12 = Some (Paused 3000)
  /\ nth_error (snd (main mixed_batch)) 13 = Some (InArticle 2 (Searched (lit "Z")))
  /\ length (snd (main mixed_batch)) = 19
  /\ (exists t c refs,
         nth_error (snd (main mixed_batch)) 18
         = Some (InArticle 2 (Enhanced t c refs))).
Proof.
  vm_compute. repeat split. do 3 eexists. reflexivity.
Qed.

(** The mixed batch: one success, two failures, two pauses. *)
Example mixed_batch_ends :
  fst (main mixed_batch)
  = Completed {| successful := 1; failed := 2; total := 3 |}
  /\ searched_titles (snd (main mixed_batch)) = [lit "X"; lit "Y"; lit "Z"]
  /\ length (article_pauses (snd (main mixed_batch))) = 2.
Proof. vm_compute. repeat split. Qed.

End BatchFacts.

(** ** What the link harvester does not lose *)

Module LinkCompleteness.
Import Scraper.

Lemma link_step_grows (articleLinks : list jsstring) (a : Element) :
  incl articleLinks (link_step articleLinks a).
Proof.
  rewrite LinkHarvester.link_step_resolve.
  destruct (el_href a) as [href|]; [|apply incl_refl].
  destruct (blog_href href); [|apply incl_refl].
  destruct (arr_includes articleLinks (resolve href)); [apply incl_refl|].
  apply incl_appl, incl_refl.
Qed.

Lemma link_fold_grows (els : list Element) :
  forall articleLinks,
    incl articleLinks (fold_left link_step els articleLinks).
Proof.
  induction els as [|a els IH]; intros acc; [apply incl_refl|].
  cbn [fold_left]. eapply incl_tran; [apply link_step_grows | apply IH].
Qed.

Lemma link_fold_collects (els : list Element) :
  forall articleLinks a href,
    In a els -> el_href a = Some href -> blog_href href = true ->
    In (resolve href) (fold_left link_step els articleLinks).
Proof.
  induction els as [|e els IH]; intros acc a href Hin Hhref Hblog;
    [contradiction|].
  cbn [fold_left]. destruct Hin as [->|Hin]; [|now apply (IH _ a)].
  apply link_fold_grows. rewrite LinkHarvester.link_step_resolve, Hhref, Hblog.
  destruct (arr_includes acc (resolve href)) eqn:E.
  - now apply JsFacts.arr_includes_In.
  - apply in_or_app. right. now left.
Qed.

Section WithDom.
Context `{Cheerio}.

Lemma links_loop_collects (d : doc) (selectors : list string) :
  forall articleLinks,
    length (links_loop d selectors articleLinks) < 5 ->
    incl articleLinks (links_loop d selectors articleLinks)
    /\ forall a href,
         In a (anchors d selectors) -> el_href a = Some href ->
         blog_href href = true ->
         In (resolve href) (links_loop d selectors articleLinks).
Proof.
  induction selectors as [|selector rest IH]; intros acc Hfew.
  - split; [apply incl_refl | intros a href []].
  - cbn [links_loop] in *. cbv zeta in *.
    destruct (Nat.leb_spec 5 (length (fold_left link_step (select d selector) acc)))
      as [Hge|Hlt]; [lia|].
    destruct (IH _ Hfew) as [Hincl Hrest]. split.
    + eapply incl_tran; [apply link_fold_grows | exact Hincl].
    + intros a href Hin Hhref Hblog.
      change (anchors d (selector :: rest))
        with (select d selector ++ anchors d rest) in Hin.
      apply in_app_or in Hin as [Hin|Hin]; [|now apply (Hrest a)].
      apply Hincl. now apply (link_fold_collects _ _ a).
Qed.

(** X22.  When a listing page gives fewer than five links, none is lost:
    every anchor matched by a link selector whose [href] contains [blog]
    and no [#] has its resolved URL in the result. *)
Theorem few_links_all_returned (d : doc) (a : Element) (href : jsstring) :
  length (scrapeArticleLinks (Some d)) < 5 ->
  In a (anchors d link_selectors) ->
  el_href a = Some href ->
  blog_href href = true ->
  In (resolve href) (scrapeArticleLinks (Some d)).
Proof.
  unfold scrapeArticleLinks. intros Hfew Hin Hhref Hblog.
  assert (Hloop : length (links_loop d link_selectors []) < 5).
  { rewrite length_firstn in Hfew. lia. }
  rewrite firstn_all2 by lia.
  destruct (links_loop_collects d link_selectors [] Hloop) as [_ Hall].
  now apply (Hall a).
Qed.

End WithDom.

Lemma few_links_all_returned_witness :
  In (resolve (lit "blogs/two/"))
     (scrapeArticleLinks (H := TablePage) (Some small_listing)).
Proof.
  refine (@few_links_all_returned TablePage small_listing
            (anchor "blogs/two/") (lit "blogs/two/") _ _ eq_refl eq_refl).
  - apply Nat.ltb_lt. vm_compute. reflexivity.
  - vm_compute. do 3 right. left. reflexivity.
Defined.

End LinkCompleteness.
